(** * SHTCx temperature / humidity driver (esphome/components/shtcx/shtcx.cpp)

    A shallow embedding of the driver and the properties of its protocol
    engine: the CRC-8 of the data words, the frame reader, the decoding of
    the ID register, the set-up sequence and the two-phase measurement
    cycle.

    Fixed-width integers are [Z] with the truncation written out, bytes on
    the wire are [Byte.byte], [float] is IEEE-754 binary32 through the
    Standard Library's [SpecFloat] at precision 24 and exponent bound 128.
    The I2C transport, the sensor sinks, the status flags and the timer of
    the host framework are collaborators of the driver: the transport is an
    interface ([I2CDevice]), the others are fields of the component state
    and entries of its event log. *)

From Stdlib Require Import ZArith List Bool Lia Strings.Byte QArith SpecFloat.
Import ListNotations.
Local Open Scope Z_scope.

(** ** Fixed-width integers *)

Definition to_uint8 (x : Z) : Z := x mod 256.
Definition to_uint16 (x : Z) : Z := x mod 65536.
Definition byte_val (b : byte) : Z := Z.of_N (Byte.to_N b).

(** ** Command codes (shtcx.cpp, lines 10-14) *)

Definition SHTCX_COMMAND_SLEEP : Z := 0xB098.
Definition SHTCX_COMMAND_WAKEUP : Z := 0x3517.
Definition SHTCX_COMMAND_READ_ID_REGISTER : Z := 0xEFC8.
Definition SHTCX_COMMAND_SOFT_RESET : Z := 0x805D.
Definition SHTCX_COMMAND_POLLING_H : Z := 0x7866.

(** The enumeration of shtcx.h, as the source uses it. *)
Inductive SHTCXType : Type :=
| SHTCX_TYPE_SHTC3
| SHTCX_TYPE_SHTC1
| SHTCX_TYPE_UNKNOWN.

Definition SHTCXType_eqb (a b : SHTCXType) : bool :=
  match a, b with
  | SHTCX_TYPE_SHTC3, SHTCX_TYPE_SHTC3 => true
  | SHTCX_TYPE_SHTC1, SHTCX_TYPE_SHTC1 => true
  | SHTCX_TYPE_UNKNOWN, SHTCX_TYPE_UNKNOWN => true
  | _, _ => false
  end.

(** ** CRC-8 (shtcx.cpp, lines 118-141)

    [crc] is a [uint8_t]: [(crc << 1) ^ 0x131] is computed on [int] and
    truncated by the assignment. *)

Definition crc_bit_step (crc : Z) : Z :=
  if negb (Z.land crc 0x80 =? 0)
  then to_uint8 (Z.lxor (Z.shiftl crc 1) 0x131)
  else to_uint8 (Z.shiftl crc 1).

(** [for (bit = 8; bit > 0; --bit)]: the body runs [bit] times. *)
Fixpoint crc_bit_loop (bit : nat) (crc : Z) : Z :=
  match bit with
  | O => crc
  | S bit' => crc_bit_loop bit' (crc_bit_step crc)
  end.

Definition sht_crc (data1 data2 : Z) : Z :=
  let crc := 0xFF in
  let crc := to_uint8 (Z.lxor crc data1) in
  let crc := crc_bit_loop 8 crc in
  let crc := to_uint8 (Z.lxor crc data2) in
  let crc := crc_bit_loop 8 crc in
  crc.

(** The CRC as the specification words it: a running 8-bit value, each input
    byte exclusive-ored into it and followed by eight steps of "shift left
    by one, and exclusive-or the polynomial when the bit shifted out was 1". *)

Definition crc8_spec_step (poly crc : Z) : Z :=
  let shifted_out := Z.testbit crc 7 in
  let shifted := Z.land (Z.shiftl crc 1) 0xFF in
  if shifted_out then Z.lxor shifted poly else shifted.

Definition crc8_spec_byte (poly crc byte : Z) : Z :=
  Nat.iter 8 (crc8_spec_step poly) (Z.lxor crc byte).

Definition crc8_spec (poly init : Z) (data : list Z) : Z :=
  fold_left (crc8_spec_byte poly) data init.

(** ** binary32 arithmetic *)

Definition f32_prec : Z := 24.
Definition f32_emax : Z := 128.

Definition f32_of_Z (z : Z) : spec_float := binary_normalize f32_prec f32_emax z 0 false.
Definition f32_mul : spec_float -> spec_float -> spec_float := SFmul f32_prec f32_emax.
Definition f32_div : spec_float -> spec_float -> spec_float := SFdiv f32_prec f32_emax.
Definition f32_sub : spec_float -> spec_float -> spec_float := SFsub f32_prec f32_emax.
Definition NAN : spec_float := S754_nan.

(** The real number a finite binary32 value stands for. *)
Definition f32_value (x : spec_float) : option Q :=
  match x with
  | S754_zero _ => Some (0 # 1)%Q
  | S754_finite s m e =>
      Some (Qmult (inject_Z (cond_Zopp s (Zpos m))) (Qpower (2 # 1) e))
  | S754_infinity _ | S754_nan => None
  end.

(** Lines 97-98: the conversion of the two raw words. *)
Definition temperature_of_raw (raw0 : Z) : spec_float :=
  f32_sub (f32_div (f32_mul (f32_of_Z 175) (f32_of_Z raw0)) (f32_of_Z 65536))
          (f32_of_Z 45).

Definition humidity_of_raw (raw1 : Z) : spec_float :=
  f32_div (f32_mul (f32_of_Z 100) (f32_of_Z raw1)) (f32_of_Z 65536).

(** The same two formulas over the rationals, as the specification writes
    them. *)
Definition temperature_formula (raw0 : Z) : Q :=
  (Qminus (Qdiv (Qmult (175 # 1) (inject_Z raw0)) (65536 # 1)) (45 # 1))%Q.

Definition humidity_formula (raw1 : Z) : Q :=
  (Qdiv (Qmult (100 # 1) (inject_Z raw1)) (65536 # 1))%Q.

Definition f32_is (x : spec_float) (q : Q) : bool :=
  match f32_value x with
  | Some v => Qeq_bool v q
  | None => false
  end.

(** ** Device-ID decoding (shtcx.cpp, lines 47-55) *)

Definition decode_device_id (device_id_register : Z) : SHTCXType :=
  if Z.land device_id_register 0x3F =? 0x07 then
    if negb (Z.land device_id_register 0x800 =? 0)
    then SHTCX_TYPE_SHTC3
    else SHTCX_TYPE_SHTC1
  else SHTCX_TYPE_UNKNOWN.

(** ** The transport

    The I2C base class is not part of the driver.  [write_byte b r d] is
    [write_byte(a_register, data)]: it answers whether the write was
    acknowledged.  [read b n] is [read(buf, n)]: [None] is any error code
    other than [ERROR_OK], [Some bytes] the bytes the device delivered. *)

Class I2CDevice (bus : Type) : Type := {
  write_byte : bus -> Z -> Z -> bool * bus;
  read : bus -> Z -> option (list byte) * bus
}.

(** What the driver does to its collaborators, in order. *)
Inductive event : Type :=
| EvWriteByte (a_register data : Z) (ok : bool)
| EvRead (num_bytes : Z) (answer : option (list byte))
| EvDelayMicroseconds (us : Z)
| EvPublishTemperature (state : spec_float)
| EvPublishHumidity (state : spec_float)
| EvSetTimeout (ms : Z).

(** The component: the two fields the driver owns ([type_], [sensor_id_]),
    the two sink pointers ([true] when not [nullptr]), the status flags of
    the host framework, the transport, the event log and the timeouts that
    are pending (each is the completion closure of [update], with its
    delay). *)
Record SHTCXComponent (bus : Type) : Type := mkSHTCX {
  type_ : SHTCXType;
  sensor_id_ : Z;
  temperature_sensor_ : bool;
  humidity_sensor_ : bool;
  warning : bool;
  failed : bool;
  i2c : bus;
  log : list event;
  pending : list Z
}.

Arguments mkSHTCX {bus}.
Arguments type_ {bus}.
Arguments sensor_id_ {bus}.
Arguments temperature_sensor_ {bus}.
Arguments humidity_sensor_ {bus}.
Arguments warning {bus}.
Arguments failed {bus}.
Arguments i2c {bus}.
Arguments log {bus}.
Arguments pending {bus}.

(** ** The frame buffer of [read_data_]

    [std::vector<uint8_t> buf(num_bytes)] has exactly [num_bytes] elements,
    all zero; the transport stores at most [num_bytes] bytes into it. *)
Definition fill_buffer (num_bytes : Z) (bytes : list byte) : list byte :=
  firstn (Z.to_nat num_bytes) (bytes ++ repeat x00 (Z.to_nat num_bytes)).

(** [buf[j]]: defined inside the vector only. *)
Definition vec_get (buf : list byte) (j : Z) : option Z :=
  if j <? 0 then None else option_map byte_val (nth_error buf (Z.to_nat j)).

(** The loop of lines 151-159, with [remaining] iterations to go and
    [data] the words stored so far.  [Some (ok, data)] is the returned
    boolean and the contents of the output array; [None] is a read outside
    the vector, for which the program has no defined result. *)
Fixpoint read_data_loop (buf : list byte) (remaining : nat) (i : Z) (data : list Z)
  : option (bool * list Z) :=
  match remaining with
  | O => Some (true, data)
  | S remaining' =>
      let j := to_uint8 (3 * i) in
      match vec_get buf j, vec_get buf (j + 1), vec_get buf (j + 2) with
      | Some b0, Some b1, Some b2 =>
          let crc := sht_crc b0 b1 in
          if negb (crc =? b2) then Some (false, data)
          else read_data_loop buf remaining' (to_uint8 (i + 1))
                 (data ++ [to_uint16 (Z.lor (Z.shiftl b0 8) b1)])
      | _, _, _ => None
      end
  end.

(** The frame as the specification reads it: the groups of three bytes. *)
Fixpoint groups (n : nat) (bytes : list byte) : list (Z * Z * Z) :=
  match n, bytes with
  | S n', hi :: lo :: crc :: rest =>
      (byte_val hi, byte_val lo, byte_val crc) :: groups n' rest
  | _, _ => []
  end.

Definition group_ok (g : Z * Z * Z) : bool :=
  let '(hi, lo, crc) := g in sht_crc hi lo =? crc.

Definition group_word (g : Z * Z * Z) : Z :=
  let '(hi, lo, _) := g in Z.lor (Z.shiftl hi 8) lo.

Section Driver.

Context {bus : Type} {I2C : I2CDevice bus}.

Abbreviation component := (SHTCXComponent bus).

Definition set_type (s : component) (t : SHTCXType) : component :=
  mkSHTCX t (sensor_id_ s) (temperature_sensor_ s) (humidity_sensor_ s)
          (warning s) (failed s) (i2c s) (log s) (pending s).

Definition set_sensor_id (s : component) (id : Z) : component :=
  mkSHTCX (type_ s) id (temperature_sensor_ s) (humidity_sensor_ s)
          (warning s) (failed s) (i2c s) (log s) (pending s).

Definition set_warning (s : component) (w : bool) : component :=
  mkSHTCX (type_ s) (sensor_id_ s) (temperature_sensor_ s) (humidity_sensor_ s)
          w (failed s) (i2c s) (log s) (pending s).

Definition set_failed (s : component) (f : bool) : component :=
  mkSHTCX (type_ s) (sensor_id_ s) (temperature_sensor_ s) (humidity_sensor_ s)
          (warning s) f (i2c s) (log s) (pending s).

Definition set_i2c (s : component) (b : bus) : component :=
  mkSHTCX (type_ s) (sensor_id_ s) (temperature_sensor_ s) (humidity_sensor_ s)
          (warning s) (failed s) b (log s) (pending s).

Definition emit (s : component) (e : event) : component :=
  mkSHTCX (type_ s) (sensor_id_ s) (temperature_sensor_ s) (humidity_sensor_ s)
          (warning s) (failed s) (i2c s) (log s ++ [e]) (pending s).

Definition set_pending (s : component) (p : list Z) : component :=
  mkSHTCX (type_ s) (sensor_id_ s) (temperature_sensor_ s) (humidity_sensor_ s)
          (warning s) (failed s) (i2c s) (log s) p.

(** ** Host framework

    Modelled from the spec: the status flags of the host component
    ([status_has_warning], [status_set_warning], [status_clear_warning],
    [mark_failed], [is_failed]) are not in the driver's source.  The
    warning is the boolean "communication warning" flag; [mark_failed]
    puts the component in the permanently-failed state. *)
Definition status_has_warning (s : component) : bool := warning s.
Definition status_set_warning (s : component) : component := set_warning s true.
Definition status_clear_warning (s : component) : component := set_warning s false.
Definition mark_failed (s : component) : component := set_failed s true.
Definition is_failed (s : component) : bool := failed s.

(** Modelled from the spec: the sinks' [publish(float)] and the timer's
    [after(duration_ms, continuation)] (fire-once, no cancellation) are
    host collaborators; a publication is an entry of the log, a scheduled
    continuation an entry of [pending]. *)
Definition publish_temperature (s : component) (v : spec_float) : component :=
  emit s (EvPublishTemperature v).
Definition publish_humidity (s : component) (v : spec_float) : component :=
  emit s (EvPublishHumidity v).
Definition set_timeout (s : component) (ms : Z) : component :=
  set_pending (emit s (EvSetTimeout ms)) (pending s ++ [ms]).
Definition delayMicroseconds (s : component) (us : Z) : component :=
  emit s (EvDelayMicroseconds us).

(** ** Commands (shtcx.cpp, lines 113-116 and 164-173) *)

Definition write_command_ (s : component) (command : Z) : bool * component :=
  let a_register := Z.shiftr command 8 in
  let data := Z.land command 0xFF in
  let '(ok, b) := write_byte (i2c s) a_register data in
  (ok, emit (set_i2c s b) (EvWriteByte a_register data ok)).

Definition soft_reset (s : component) : component :=
  let s := snd (write_command_ s SHTCX_COMMAND_SOFT_RESET) in
  delayMicroseconds s 200.

Definition sleep (s : component) : component :=
  snd (write_command_ s SHTCX_COMMAND_SLEEP).

Definition wake_up (s : component) : component :=
  let s := snd (write_command_ s SHTCX_COMMAND_WAKEUP) in
  delayMicroseconds s 200.

(** ** Frame reader (shtcx.cpp, lines 143-162)

    [num_bytes] is a [uint8_t]: [len * 3] is truncated to 8 bits. *)
Definition read_data_ (s : component) (len : Z) : option (bool * list Z) * component :=
  let num_bytes := to_uint8 (len * 3) in
  let '(answer, b) := read (i2c s) num_bytes in
  let s := emit (set_i2c s b) (EvRead num_bytes answer) in
  match answer with
  | None => (Some (false, []), s)
  | Some bytes =>
      (read_data_loop (fill_buffer num_bytes bytes) (Z.to_nat len) 0 [], s)
  end.

(** ** Set-up (shtcx.cpp, lines 27-57)

    The branch on [None] is a read outside the frame buffer; with one word
    it cannot be taken (lemma [read_data__defined]). *)
Definition setup (s : component) : component :=
  let s := wake_up s in
  let s := soft_reset s in
  let '(ok, s) := write_command_ s SHTCX_COMMAND_READ_ID_REGISTER in
  if negb ok then mark_failed s
  else
    let '(r, s) := read_data_ s 1 in
    match r with
    | None => s
    | Some (ok, data) =>
        if negb ok then mark_failed s
        else
          let device_id_register := nth 0 data 0 in
          let s := set_sensor_id s device_id_register in
          set_type s (decode_device_id device_id_register)
    end.

(** ** Measurement cycle (shtcx.cpp, lines 71-111) *)

(** Lines 72-78: the optional soft reset and the optional wake-up. *)
Definition update_prologue (s : component) : component :=
  let s := if status_has_warning s then soft_reset s else s in
  if negb (SHTCXType_eqb (type_ s) SHTCX_TYPE_SHTC1) then wake_up s else s.

Definition update (s : component) : component :=
  let s := if status_has_warning s then soft_reset s else s in
  let s := if negb (SHTCXType_eqb (type_ s) SHTCX_TYPE_SHTC1) then wake_up s else s in
  let '(ok, s) := write_command_ s SHTCX_COMMAND_POLLING_H in
  if negb ok then
    let s := if temperature_sensor_ s then publish_temperature s NAN else s in
    let s := if humidity_sensor_ s then publish_humidity s NAN else s in
    status_set_warning s
  else set_timeout s 50.

(** The closure handed to [set_timeout] (lines 89-110). *)
Definition update_completion (s : component) : component :=
  let temperature := NAN in
  let humidity := NAN in
  let '(r, s) := read_data_ s 2 in
  match r with
  | None => s
  | Some (ok, raw_data) =>
      let '(s, temperature, humidity) :=
        if negb ok then (status_set_warning s, temperature, humidity)
        else (s, temperature_of_raw (nth 0 raw_data 0),
                 humidity_of_raw (nth 1 raw_data 0)) in
      let s := if temperature_sensor_ s then publish_temperature s temperature else s in
      let s := if humidity_sensor_ s then publish_humidity s humidity else s in
      let s := status_clear_warning s in
      if negb (SHTCXType_eqb (type_ s) SHTCX_TYPE_SHTC1) then sleep s else s
  end.

(** Modelled from the spec: the timer fires every pending continuation
    once, in order, before the next tick. *)
Fixpoint run_completions (n : nat) (s : component) : component :=
  match n with
  | O => s
  | S n' => run_completions n' (update_completion s)
  end.

Definition run_pending (s : component) : component :=
  run_completions (length (pending s)) (set_pending s []).

(** One scheduled tick together with its delayed completion. *)
Definition cycle (s : component) : component := run_pending (update s).

End Driver.

(** ** A scripted transport

    Each write consumes the next scripted acknowledgement and each read the
    next scripted answer; an exhausted script fails every operation. *)
Record script : Type := mkScript {
  write_acks : list bool;
  read_answers : list (option (list byte))
}.

#[export] Instance script_I2C : I2CDevice script := {
  write_byte b _ _ :=
    (hd false (write_acks b), mkScript (tl (write_acks b)) (read_answers b));
  read b _ :=
    (hd None (read_answers b), mkScript (write_acks b) (tl (read_answers b)))
}.

Definition component0 (t : SHTCXType) (w : bool) (b : script) : SHTCXComponent script :=
  mkSHTCX t 0 true true w false b [] [].

(** ** Exhaustive checks over a range of integers

    [check_range f bits base] evaluates [f] at the [2 ^ bits] integers from
    [base] on. *)
Fixpoint check_range (f : Z -> bool) (bits : nat) (base : Z) : bool :=
  match bits with
  | O => f base
  | S k => check_range f k base && check_range f k (base + 2 ^ Z.of_nat k)
  end.

(** Both conversions of lines 97-98 are exact at the raw word [w]. *)
Definition decode_exact (w : Z) : bool :=
  f32_is (temperature_of_raw w) (temperature_formula w)
  && f32_is (humidity_of_raw w) (humidity_formula w).

(** The values published to each sink, oldest first. *)
Definition published_temperature (l : list event) : list spec_float :=
  flat_map (fun e => match e with EvPublishTemperature v => [v] | _ => [] end) l.

Definition published_humidity (l : list event) : list spec_float :=
  flat_map (fun e => match e with EvPublishHumidity v => [v] | _ => [] end) l.

(** The log entry of [write_command_ command] answered by [ack]. *)
Definition command_write (command : Z) (ack : bool) : event :=
  EvWriteByte (Z.shiftr command 8) (Z.land command 0xFF) ack.

(** The writes of the log, oldest first, as 16-bit command codes. *)
Definition commands_sent (l : list event) : list Z :=
  flat_map (fun e => match e with
                     | EvWriteByte r d _ => [Z.lor (Z.shiftl r 8) d]
                     | _ => []
                     end) l.

(** The words of the leading groups of a frame whose CRC holds: what the
    reader has stored in the output array when it stops. *)
Fixpoint leading_words (gs : list (Z * Z * Z)) : list Z :=
  match gs with
  | [] => []
  | g :: gs' => if group_ok g then group_word g :: leading_words gs' else []
  end.

(** The word 0xBEEF of the data sheet with its CRC byte, a frame of 86 such
    groups, and a component whose device answers the next read with that
    frame. *)
Definition frame_BEEF : list byte := [xbe; xef; x92].

Definition frame_86_words : list byte :=
  concat (repeat frame_BEEF 86).

Definition component_reading_86_words : SHTCXComponent script :=
  component0 SHTCX_TYPE_SHTC3 false (mkScript [] [Some frame_86_words]).

(** Set-up against a transport that refuses the ReadID write, and against
    one that answers the read with a wrong CRC byte. *)
Definition component_id_write_fails : SHTCXComponent script :=
  component0 SHTCX_TYPE_UNKNOWN false (mkScript [true; true; false] []).

Definition component_id_crc_fails : SHTCXComponent script :=
  component0 SHTCX_TYPE_UNKNOWN false
    (mkScript [true; true; true] [Some [x08; x87; x00]]).

(** A tick whose poll command is refused; one whose poll command is taken
    and whose read fails on the bus; one whose read delivers the raw
    words 0x8000 and 0x0000. *)
Definition component_poll_fails : SHTCXComponent script :=
  component0 SHTCX_TYPE_SHTC3 false (mkScript [true; false] []).

Definition component_read_fails : SHTCXComponent script :=
  component0 SHTCX_TYPE_SHTC3 false (mkScript [true; true; true] [None]).

Definition component_reading : SHTCXComponent script :=
  component0 SHTCX_TYPE_SHTC3 false
    (mkScript [true; true; true] [Some [x80; x00; xa2; x00; x00; x81]]).

(** One shift step of the CRC undone: the step leaves bit 0 set exactly
    when it has exclusive-ored the polynomial. *)
Definition crc_bit_unstep (crc : Z) : Z :=
  if Z.testbit crc 0
  then Z.lor (Z.shiftr (Z.lxor crc 0x31) 1) 0x80
  else Z.shiftr crc 1.

(** The frame with the byte at position [p] replaced by [v]. *)
Definition set_byte (frame : list byte) (p : nat) (v : byte) : list byte :=
  firstn p frame ++ v :: skipn (S p) frame.

(** The byte counts of the reads of the log, oldest first. *)
Definition reads_requested (l : list event) : list Z :=
  flat_map (fun e => match e with EvRead n _ => [n] | _ => [] end) l.

(** The component's own state: everything but the transport and the log. *)
Definition same_fields {bus : Type} (s s' : SHTCXComponent bus) : Prop :=
  type_ s' = type_ s
  /\ sensor_id_ s' = sensor_id_ s
  /\ temperature_sensor_ s' = temperature_sensor_ s
  /\ humidity_sensor_ s' = humidity_sensor_ s
  /\ warning s' = warning s
  /\ failed s' = failed s
  /\ pending s' = pending s.

(** A measurement frame of two valid groups (raw words 0x6666 and 0x8000)
    and a component whose device answers the completion's read with that
    frame after one byte of it has been changed. *)
Definition frame_measurement : list byte := [x66; x66; x93; x80; x00; xa2].

Definition component_corrupted_reading : SHTCXComponent script :=
  component0 SHTCX_TYPE_SHTC3 false
    (mkScript [true; true; true] [Some (set_byte frame_measurement 4 x01)]).

Definition component_measuring : SHTCXComponent script :=
  component0 SHTCX_TYPE_SHTC3 true
    (mkScript [true; true; true; true] [Some frame_measurement]).

Definition component_identifying : SHTCXComponent script :=
  component0 SHTCX_TYPE_UNKNOWN true
    (mkScript [false; false; true] [Some [x08; x87; x5b]]).

(** * Properties *)

(** ** Arithmetic on bytes and words *)

Lemma check_range_sound (f : Z -> bool) (bits : nat) :
  forall base w,
    check_range f bits base = true ->
    base <= w < base + 2 ^ Z.of_nat bits ->
    f w = true.
Proof.
  induction bits as [|k IH]; intros base w Hc Hw.
  - cbn in Hc, Hw. replace w with base by lia. exact Hc.
  - cbn [check_range] in Hc. apply andb_true_iff in Hc. destruct Hc as [Hlo Hhi].
    rewrite Nat2Z.inj_succ, Z.pow_succ_r in Hw by lia.
    destruct (Z_lt_le_dec w (base + 2 ^ Z.of_nat k)) as [Hlt|Hge].
    + apply (IH base); [exact Hlo | lia].
    + apply (IH (base + 2 ^ Z.of_nat k)); [exact Hhi | lia].
Qed.

Lemma byte_val_range (b : byte) : 0 <= byte_val b < 256.
Proof.
  unfold byte_val. pose proof (Byte.to_N_bounded b) as H. lia.
Qed.

Lemma log2_below (a n : Z) : 0 < n -> 0 <= a < 2 ^ n -> Z.log2 a < n.
Proof.
  intros Hn [H0 H1].
  destruct (Z.eq_dec a 0) as [->|Hne].
  - cbn. exact Hn.
  - apply (proj1 (Z.log2_lt_pow2 a n ltac:(lia))). exact H1.
Qed.

Lemma below_of_log2 (a n : Z) : 0 <= a -> Z.log2 a < n -> a < 2 ^ n.
Proof.
  intros H0 Hl.
  destruct (Z.eq_dec a 0) as [->|Hne].
  - cbn in Hl. apply Z.pow_pos_nonneg; lia.
  - apply (proj2 (Z.log2_lt_pow2 a n ltac:(lia))). exact Hl.
Qed.

Lemma lxor_below (a b n : Z) :
  0 < n -> 0 <= a < 2 ^ n -> 0 <= b < 2 ^ n -> 0 <= Z.lxor a b < 2 ^ n.
Proof.
  intros Hn Ha Hb.
  assert (H0 : 0 <= Z.lxor a b) by (apply Z.lxor_nonneg; lia).
  split; [exact H0|].
  apply below_of_log2; [exact H0|].
  pose proof (Z.log2_lxor a b (proj1 Ha) (proj1 Hb)) as Hl.
  pose proof (log2_below a n Hn Ha). pose proof (log2_below b n Hn Hb). lia.
Qed.

Lemma lor_below (a b n : Z) :
  0 < n -> 0 <= a < 2 ^ n -> 0 <= b < 2 ^ n -> 0 <= Z.lor a b < 2 ^ n.
Proof.
  intros Hn Ha Hb.
  assert (H0 : 0 <= Z.lor a b) by (apply Z.lor_nonneg; lia).
  split; [exact H0|].
  apply below_of_log2; [exact H0|].
  rewrite Z.log2_lor by lia.
  pose proof (log2_below a n Hn Ha). pose proof (log2_below b n Hn Hb). lia.
Qed.

Lemma word_of_bytes_range (hi lo : Z) :
  0 <= hi < 256 -> 0 <= lo < 256 -> 0 <= Z.lor (Z.shiftl hi 8) lo < 65536.
Proof.
  intros Hh Hl. apply (lor_below _ _ 16); [lia| |lia].
  rewrite Z.shiftl_mul_pow2 by lia. lia.
Qed.

Lemma to_uint8_small (x : Z) : 0 <= x < 256 -> to_uint8 x = x.
Proof. intros H. unfold to_uint8. apply Z.mod_small. exact H. Qed.

Lemma to_uint16_small (x : Z) : 0 <= x < 65536 -> to_uint16 x = x.
Proof. intros H. unfold to_uint16. apply Z.mod_small. exact H. Qed.

Lemma to_uint16_range (x : Z) : 0 <= to_uint16 x < 65536.
Proof. unfold to_uint16. apply Z.mod_pos_bound. lia. Qed.

(** [x & 2^n] is zero exactly when bit [n] of [x] is clear. *)
Lemma land_pow2_testbit (x n : Z) :
  0 <= n -> (Z.land x (2 ^ n) =? 0) = negb (Z.testbit x n).
Proof.
  intros Hn. destruct (Z.testbit x n) eqn:Hb; cbn [negb].
  - apply Z.eqb_neq. intros H0.
    assert (Ht : Z.testbit (Z.land x (2 ^ n)) n = true).
    { rewrite Z.land_spec, Hb, Z.pow2_bits_true by lia. reflexivity. }
    rewrite H0, Z.bits_0 in Ht. discriminate.
  - apply Z.eqb_eq. apply Z.bits_inj'. intros m Hm.
    rewrite Z.land_spec, Z.bits_0, Z.pow2_bits_eqb by lia.
    destruct (Z.eqb_spec n m) as [->|Hne].
    + rewrite Hb. reflexivity.
    + apply andb_false_r.
Qed.

(** ** CRC-8 *)

Lemma crc_bit_step_range (crc : Z) : 0 <= crc_bit_step crc < 256.
Proof.
  unfold crc_bit_step, to_uint8.
  destruct (negb (Z.land crc 128 =? 0)); apply Z.mod_pos_bound; lia.
Qed.

Lemma crc_bit_step_checked :
  check_range (fun c => crc_bit_step c =? crc8_spec_step 0x31 c) 8 0 = true.
Proof. vm_compute. reflexivity. Qed.

Lemma crc_bit_step_spec (crc : Z) :
  0 <= crc < 256 -> crc_bit_step crc = crc8_spec_step 0x31 crc.
Proof.
  intros H. apply Z.eqb_eq.
  apply (check_range_sound _ 8 0 crc crc_bit_step_checked).
  cbn. lia.
Qed.

Lemma crc_bit_loop_iter (bit : nat) :
  forall crc, crc_bit_loop bit crc = Nat.iter bit crc_bit_step crc.
Proof.
  induction bit as [|n IH]; intros crc.
  - reflexivity.
  - cbn [crc_bit_loop]. rewrite IH, Nat.iter_succ_r. reflexivity.
Qed.

Lemma crc_iter_spec (bit : nat) (crc : Z) :
  0 <= crc < 256 ->
  Nat.iter bit crc_bit_step crc = Nat.iter bit (crc8_spec_step 0x31) crc
  /\ 0 <= Nat.iter bit crc_bit_step crc < 256.
Proof.
  intros H. induction bit as [|n [IHe IHr]].
  - split; [reflexivity | exact H].
  - rewrite !Nat.iter_succ. split.
    + rewrite <- IHe. apply crc_bit_step_spec. exact IHr.
    + apply crc_bit_step_range.
Qed.

Lemma sht_crc_range (data1 data2 : Z) : 0 <= sht_crc data1 data2 < 256.
Proof.
  unfold sht_crc. cbn [crc_bit_loop]. apply crc_bit_step_range.
Qed.

(** C2. [sht_crc] is the CRC-8 of the specification with polynomial 0x31
    and initial value 0xFF over its two bytes, taken in order: the byte is
    exclusive-ored into the running value, then eight shift steps follow,
    each with the conditional exclusive-or of 0x31.  On the data sheet's
    test vector 0xBE 0xEF it yields 0x92. *)
Theorem sht_crc_is_crc8 (a b : Z) :
  0 <= a < 256 -> 0 <= b < 256 ->
  sht_crc a b = crc8_spec 0x31 0xFF [a; b]
  /\ sht_crc 0xBE 0xEF = 0x92.
Proof.
  intros Ha Hb. split; [|reflexivity].
  unfold sht_crc, crc8_spec, crc8_spec_byte. cbn [fold_left].
  assert (Hx : 0 <= Z.lxor 255 a < 256) by (apply (lxor_below _ _ 8); lia).
  rewrite (to_uint8_small _ Hx), !crc_bit_loop_iter.
  destruct (crc_iter_spec 8 _ Hx) as [He Hr].
  assert (Hy : 0 <= Z.lxor (Nat.iter 8 crc_bit_step (Z.lxor 255 a)) b < 256)
    by (apply (lxor_below _ _ 8); lia).
  rewrite (to_uint8_small _ Hy).
  destruct (crc_iter_spec 8 _ Hy) as [He' _].
  rewrite He', He. reflexivity.
Qed.

Lemma sht_crc_is_crc8_witness :
  (0 <= 0xBE < 256) /\ (0 <= 0xEF < 256)
  /\ sht_crc 0xBE 0xEF = crc8_spec 0x31 0xFF [0xBE; 0xEF]
  /\ sht_crc 0xBE 0xEF = 0x92.
Proof.
  split; [lia|]. split; [lia|].
  apply (sht_crc_is_crc8 0xBE 0xEF); lia.
Defined.

(** ** Device-ID decoding *)

(** C4. The variant is a function of the ID register alone: when the low
    six bits are 0x07 it is SHTC3 if bit 11 is set and SHTC1 if it is
    clear; when they differ from 0x07 it is Unknown. *)
Theorem decode_device_id_spec (device_id_register : Z) :
  0 <= device_id_register < 65536 ->
  (Z.land device_id_register 0x3F = 0x07 ->
   Z.testbit device_id_register 11 = true ->
   decode_device_id device_id_register = SHTCX_TYPE_SHTC3)
  /\ (Z.land device_id_register 0x3F = 0x07 ->
      Z.testbit device_id_register 11 = false ->
      decode_device_id device_id_register = SHTCX_TYPE_SHTC1)
  /\ (Z.land device_id_register 0x3F <> 0x07 ->
      decode_device_id device_id_register = SHTCX_TYPE_UNKNOWN).
Proof.
  intros _. unfold decode_device_id.
  change 2048 with (2 ^ 11). rewrite land_pow2_testbit by lia.
  repeat split.
  - intros H6 H11. apply Z.eqb_eq in H6. rewrite H6, H11. reflexivity.
  - intros H6 H11. apply Z.eqb_eq in H6. rewrite H6, H11. reflexivity.
  - intros H6. apply Z.eqb_neq in H6. rewrite H6. reflexivity.
Qed.

Lemma decode_device_id_spec_witness :
  (0 <= 0x0887 < 65536)
  /\ decode_device_id 0x0887 = SHTCX_TYPE_SHTC3
  /\ decode_device_id 0x0007 = SHTCX_TYPE_SHTC1
  /\ decode_device_id 0x0886 = SHTCX_TYPE_UNKNOWN.
Proof.
  split; [lia|]. split; [|split].
  - apply (decode_device_id_spec 0x0887); [lia | reflexivity | reflexivity].
  - apply (decode_device_id_spec 0x0007); [lia | reflexivity | reflexivity].
  - apply (decode_device_id_spec 0x0886); [lia | discriminate].
Defined.

(** ** Conversion of the raw words *)

Lemma f32_is_sound (x : spec_float) (q : Q) :
  f32_is x q = true -> exists v, f32_value x = Some v /\ Qeq v q.
Proof.
  unfold f32_is. destruct (f32_value x) as [v|]; [|discriminate].
  intros H. exists v. split; [reflexivity|]. apply Qeq_bool_iff. exact H.
Qed.

Lemma decode_exact_checked : check_range decode_exact 16 0 = true.
Proof. vm_cast_no_check (eq_refl true). Qed.

Lemma decode_exact_all (w : Z) : 0 <= w < 65536 -> decode_exact w = true.
Proof.
  intros H. apply (check_range_sound _ 16 0 w decode_exact_checked).
  cbn. lia.
Qed.

Lemma temperature_of_raw_exact (raw0 : Z) :
  0 <= raw0 < 65536 ->
  exists v, f32_value (temperature_of_raw raw0) = Some v
            /\ Qeq v (temperature_formula raw0).
Proof.
  intros H. apply f32_is_sound.
  pose proof (decode_exact_all raw0 H) as E.
  apply andb_true_iff in E. exact (proj1 E).
Qed.

Lemma humidity_of_raw_exact (raw1 : Z) :
  0 <= raw1 < 65536 ->
  exists v, f32_value (humidity_of_raw raw1) = Some v
            /\ Qeq v (humidity_formula raw1).
Proof.
  intros H. apply f32_is_sound.
  pose proof (decode_exact_all raw1 H) as E.
  apply andb_true_iff in E. exact (proj2 E).
Qed.

(** ** The frame buffer *)

Lemma fill_buffer_length (num_bytes : Z) (bytes : list byte) :
  length (fill_buffer num_bytes bytes) = Z.to_nat num_bytes.
Proof.
  unfold fill_buffer.
  rewrite length_firstn, length_app, repeat_length. lia.
Qed.

Lemma fill_buffer_exact (num_bytes : Z) (bytes : list byte) :
  length bytes = Z.to_nat num_bytes -> fill_buffer num_bytes bytes = bytes.
Proof.
  intros H. unfold fill_buffer.
  rewrite firstn_app, <- H, firstn_all, Nat.sub_diag, firstn_O.
  apply app_nil_r.
Qed.

Lemma vec_get_app (pre rest : list byte) (m : nat) :
  vec_get (pre ++ rest) (Z.of_nat (length pre + m))
  = option_map byte_val (nth_error rest m).
Proof.
  unfold vec_get.
  destruct (Z.ltb_spec (Z.of_nat (length pre + m)) 0) as [Hneg|_]; [lia|].
  rewrite Nat2Z.id, nth_error_app2 by lia.
  replace (length pre + m - length pre)%nat with m by lia.
  reflexivity.
Qed.

Lemma vec_get_outside (buf : list byte) (j : Z) :
  Z.of_nat (length buf) <= j -> vec_get buf j = None.
Proof.
  intros H. unfold vec_get.
  destruct (Z.ltb_spec j 0) as [_|Hj]; [reflexivity|].
  assert (E : nth_error buf (Z.to_nat j) = None) by (apply nth_error_None; lia).
  rewrite E. reflexivity.
Qed.

Lemma groups_length (n : nat) :
  forall bytes, (3 * n <= length bytes)%nat -> length (groups n bytes) = n.
Proof.
  induction n as [|n IH]; intros bytes H.
  - reflexivity.
  - destruct bytes as [|hi [|lo [|crc rest]]]; cbn [length] in H; try lia.
    cbn [groups length]. rewrite IH by lia. reflexivity.
Qed.

Lemma leading_words_all_ok (gs : list (Z * Z * Z)) :
  forallb group_ok gs = true -> leading_words gs = map group_word gs.
Proof.
  induction gs as [|g gs IH]; intros H.
  - reflexivity.
  - cbn [forallb] in H. apply andb_true_iff in H. destruct H as [Hg Hgs].
    cbn [leading_words map]. rewrite Hg, IH by exact Hgs. reflexivity.
Qed.

(** The loop over a buffer that holds the [remaining] groups still to be
    read, behind the [3 * k] bytes of the [k] groups already read: it reads
    no byte outside the buffer, answers whether every group is valid, and
    has stored the words of the leading valid groups. *)
Lemma read_data_loop_groups (remaining : nat) :
  forall (pre rest : list byte) (k : nat) (data : list Z),
    length pre = (3 * k)%nat ->
    (3 * (k + remaining) < 256)%nat ->
    (3 * remaining <= length rest)%nat ->
    read_data_loop (pre ++ rest) remaining (Z.of_nat k) data
    = Some (forallb group_ok (groups remaining rest),
            data ++ leading_words (groups remaining rest)).
Proof.
  induction remaining as [|n IH]; intros pre rest k data Hpre Hk Hrest.
  - cbn. rewrite app_nil_r. reflexivity.
  - destruct rest as [|hi [|lo [|crc rest']]]; cbn [length] in Hrest; try lia.
    cbn [read_data_loop groups].
    assert (Hj : to_uint8 (3 * Z.of_nat k) = Z.of_nat (length pre + 0)).
    { rewrite to_uint8_small by lia. lia. }
    assert (Hj1 : to_uint8 (3 * Z.of_nat k) + 1 = Z.of_nat (length pre + 1)) by lia.
    assert (Hj2 : to_uint8 (3 * Z.of_nat k) + 2 = Z.of_nat (length pre + 2)) by lia.
    rewrite Hj1, Hj2, Hj, !vec_get_app. cbn [nth_error option_map].
    cbn [forallb leading_words group_ok group_word].
    destruct (sht_crc (byte_val hi) (byte_val lo) =? byte_val crc) eqn:Hcrc;
      cbn [negb andb].
    + rewrite to_uint16_small
        by (apply word_of_bytes_range; apply byte_val_range).
      replace (to_uint8 (Z.of_nat k + 1)) with (Z.of_nat (S k))
        by (rewrite to_uint8_small; lia).
      replace (pre ++ hi :: lo :: crc :: rest')
        with ((pre ++ [hi; lo; crc]) ++ rest')
        by (rewrite <- app_assoc; reflexivity).
      rewrite (IH (pre ++ [hi; lo; crc]) rest' (S k)).
      * rewrite <- app_assoc. reflexivity.
      * rewrite length_app. cbn [length]. lia.
      * lia.
      * lia.
    + rewrite app_nil_r. reflexivity.
Qed.

Lemma read_data_loop_words_range (buf : list byte) (remaining : nat) :
  forall (i : Z) (data : list Z) (ok : bool) (out : list Z),
    Forall (fun w => 0 <= w < 65536) data ->
    read_data_loop buf remaining i data = Some (ok, out) ->
    Forall (fun w => 0 <= w < 65536) out.
Proof.
  induction remaining as [|n IH]; intros i data ok out Hdata Hrun.
  - cbn in Hrun. inversion Hrun; subst. exact Hdata.
  - cbn [read_data_loop] in Hrun.
    destruct (vec_get buf (to_uint8 (3 * i))) as [b0|]; [|discriminate].
    destruct (vec_get buf (to_uint8 (3 * i) + 1)) as [b1|]; [|discriminate].
    destruct (vec_get buf (to_uint8 (3 * i) + 2)) as [b2|]; [|discriminate].
    destruct (negb (sht_crc b0 b1 =? b2)).
    + inversion Hrun; subst. exact Hdata.
    + apply (IH _ _ _ _) in Hrun; [exact Hrun|].
      apply Forall_app. split; [exact Hdata|].
      constructor; [apply to_uint16_range | constructor].
Qed.

Section DriverProperties.

Context {bus : Type} {I2C : I2CDevice bus}.

Abbreviation component := (SHTCXComponent bus).

(** ** Frame reader *)

Lemma read_data__transport_error (s : component) (len : Z) (b' : bus) :
  read (i2c s) (to_uint8 (len * 3)) = (None, b') ->
  fst (read_data_ s len) = Some (false, []).
Proof.
  intros H. unfold read_data_. rewrite H. reflexivity.
Qed.

(** With a byte count that fits the 8-bit [num_bytes], the reader stays
    inside its buffer: it has a defined result. *)
Lemma read_data__defined (s : component) (len : Z) :
  0 <= len -> 3 * len < 256 ->
  exists ok data, fst (read_data_ s len) = Some (ok, data).
Proof.
  intros H0 H1. unfold read_data_.
  destruct (read (i2c s) (to_uint8 (len * 3))) as [[bytes|] b']; cbn [fst].
  - pose proof (read_data_loop_groups (Z.to_nat len) []
                  (fill_buffer (to_uint8 (len * 3)) bytes) 0 []) as L.
    cbn [app Z.of_nat] in L. rewrite L.
    + eexists. eexists. reflexivity.
    + reflexivity.
    + lia.
    + rewrite fill_buffer_length, to_uint8_small by lia. lia.
  - eexists. eexists. reflexivity.
Qed.

Lemma read_data__words_range (s : component) (len : Z) (ok : bool) (data : list Z) :
  fst (read_data_ s len) = Some (ok, data) ->
  Forall (fun w => 0 <= w < 65536) data.
Proof.
  unfold read_data_.
  destruct (read (i2c s) (to_uint8 (len * 3))) as [[bytes|] b']; cbn [fst]; intros H.
  - apply (read_data_loop_words_range _ _ _ _ _ _ (Forall_nil _) H).
  - inversion H; subst. constructor.
Qed.

(** A loop that runs to its end has read every group inside the buffer. *)
Lemma read_data_loop_true_in_bounds (buf : list byte) (remaining : nat) :
  forall (i : Z) (data out : list Z),
    0 <= i -> i + Z.of_nat remaining <= 256 ->
    read_data_loop buf remaining i data = Some (true, out) ->
    forall k, i <= k < i + Z.of_nat remaining ->
              to_uint8 (3 * k) + 2 < Z.of_nat (length buf).
Proof.
  induction remaining as [|n IH]; intros i data out Hi Hn Hrun k Hk.
  - lia.
  - cbn [read_data_loop] in Hrun.
    destruct (vec_get buf (to_uint8 (3 * i))) as [b0|]; [|discriminate].
    destruct (vec_get buf (to_uint8 (3 * i) + 1)) as [b1|]; [|discriminate].
    destruct (vec_get buf (to_uint8 (3 * i) + 2)) as [b2|] eqn:E2; [|discriminate].
    destruct (negb (sht_crc b0 b1 =? b2)); [discriminate|].
    destruct (Z.eq_dec k i) as [->|Hne].
    + destruct (Z_lt_le_dec (to_uint8 (3 * i) + 2) (Z.of_nat (length buf)))
        as [Hin|Hout]; [exact Hin|].
      rewrite (vec_get_outside _ _ Hout) in E2. discriminate.
    + rewrite to_uint8_small in Hrun by lia.
      apply (IH (i + 1) _ _ ltac:(lia) ltac:(lia) Hrun). lia.
Qed.

(** Beyond 85 words the reader never returns true, whatever the transport
    delivers: the group of index 85 starts at byte 255 and [num_bytes] is
    at most 255. *)
Lemma read_data__beyond_85_words (s : component) (len : Z) (data : list Z) :
  85 < len < 256 -> fst (read_data_ s len) <> Some (true, data).
Proof.
  intros Hlen. unfold read_data_.
  destruct (read (i2c s) (to_uint8 (len * 3))) as [[bytes|] b']; cbn [fst];
    [|discriminate].
  intros Hrun.
  assert (Hin : to_uint8 (3 * 85) + 2
                < Z.of_nat (length (fill_buffer (to_uint8 (len * 3)) bytes))).
  { apply (read_data_loop_true_in_bounds _ (Z.to_nat len) 0 [] data);
      [lia | lia | exact Hrun | lia]. }
  rewrite fill_buffer_length in Hin.
  assert (Hnb : 0 <= to_uint8 (len * 3) < 256)
    by (unfold to_uint8; apply Z.mod_pos_bound; lia).
  change (to_uint8 (3 * 85)) with 255 in Hin. lia.
Qed.

(** C3, as amended.  For every word count [len] whose byte count [3 * len]
    fits the 8-bit [num_bytes] (at most 85 words) and every frame of
    [3 * len] bytes returned by the transport, [read_data_] returns true
    exactly when the CRC of every 3-byte group holds; it then has stored
    the words [(hi << 8) | lo] of the groups, in order; one group whose CRC
    differs makes it return false. *)
Theorem read_data__all_or_nothing
  (s : component) (len : Z) (bytes : list byte) (b' : bus) :
  0 <= len -> 3 * len < 256 ->
  read (i2c s) (3 * len) = (Some bytes, b') ->
  Z.of_nat (length bytes) = 3 * len ->
  let gs := groups (Z.to_nat len) bytes in
  let r := fst (read_data_ s len) in
  Z.of_nat (length gs) = len
  /\ ((exists data, r = Some (true, data)) <-> forallb group_ok gs = true)
  /\ (forall data, r = Some (true, data) -> data = map group_word gs)
  /\ (forallb group_ok gs = false -> exists data, r = Some (false, data)).
Proof.
  intros H0 H1 Hread Hlen gs r.
  assert (Hr : r = Some (forallb group_ok gs, leading_words gs)).
  { subst r gs. unfold read_data_.
    replace (to_uint8 (len * 3)) with (3 * len) by (rewrite to_uint8_small; lia).
    rewrite Hread. cbn [fst].
    rewrite fill_buffer_exact by lia.
    pose proof (read_data_loop_groups (Z.to_nat len) [] bytes 0 []) as L.
    cbn [app Z.of_nat] in L. apply L; [reflexivity | lia | lia]. }
  split; [|split; [|split]].
  - subst gs. rewrite groups_length by lia. lia.
  - rewrite Hr. split.
    + intros [data E]. inversion E. reflexivity.
    + intros E. rewrite E. eexists. reflexivity.
  - intros data E. rewrite Hr in E. inversion E as [[Hok Hdata]].
    apply leading_words_all_ok. exact Hok.
  - intros E. rewrite Hr, E. eexists. reflexivity.
Qed.

End DriverProperties.

Lemma read_data__all_or_nothing_witness :
  3 * 2 < 256
  /\ (exists data,
         fst (read_data_
                (component0 SHTCX_TYPE_SHTC3 false
                   (mkScript [] [Some (frame_BEEF ++ frame_BEEF)])) 2)
         = Some (true, data))
  /\ forallb group_ok (groups 2 (frame_BEEF ++ frame_BEEF)) = true.
Proof.
  split; [lia|].
  pose proof (read_data__all_or_nothing
                (component0 SHTCX_TYPE_SHTC3 false
                   (mkScript [] [Some (frame_BEEF ++ frame_BEEF)]))
                2 (frame_BEEF ++ frame_BEEF) (mkScript [] [])
                ltac:(lia) ltac:(lia) eq_refl eq_refl) as [_ [Hiff _]].
  split; [|reflexivity].
  apply Hiff. reflexivity.
Defined.

(** C3, as stated, fails at 86 words: [num_bytes] is [86 * 3] truncated to
    8 bits, that is 2; the buffer keeps two bytes of what the device
    delivers, and the very first group reads its CRC byte outside it.
    Every group of the 258-byte frame is valid, yet the read does not
    return true. *)
Lemma read_data__86_words :
  Z.of_nat (length frame_86_words) = 3 * 86
  /\ forallb group_ok (groups 86 frame_86_words) = true
  /\ to_uint8 (86 * 3) = 2
  /\ fst (read_data_ component_reading_86_words 86) = None
  /\ ~ (exists data,
          fst (read_data_ component_reading_86_words 86) = Some (true, data)).
Proof.
  assert (E : fst (read_data_ component_reading_86_words 86) = None)
    by (vm_compute; reflexivity).
  split; [vm_compute; reflexivity|].
  split; [vm_compute; reflexivity|].
  split; [reflexivity|].
  split; [exact E|].
  intros [data H]. rewrite E in H. discriminate.
Qed.

(** ** Proof steps shared by the driver's properties *)

Ltac driver_unfold :=
  unfold cycle, run_pending, setup, update, update_completion, update_prologue,
    soft_reset, wake_up, sleep, write_command_, read_data_, command_write.

Ltac driver_simpl :=
  cbn [fst snd negb andb orb app length
       type_ sensor_id_ temperature_sensor_ humidity_sensor_ warning failed
       i2c log pending
       set_type set_sensor_id set_warning set_failed set_i2c emit set_pending
       status_has_warning status_set_warning status_clear_warning
       mark_failed is_failed publish_temperature publish_humidity set_timeout
       delayMicroseconds SHTCXType_eqb run_completions].

Ltac no_bus_call t :=
  lazymatch t with
  | context [write_byte _ _ _] => fail
  | context [read _ _] => fail
  | _ => idtac
  end.

Ltac driver_case :=
  match goal with
  | |- context [write_byte ?b ?r ?d] =>
      no_bus_call b; destruct (write_byte b r d) as [[|] ?] eqn:?
  | |- context [read ?b ?n] =>
      no_bus_call b; destruct (read b n) as [[?|] ?] eqn:?
  | |- context [read_data_loop ?buf ?n ?i ?d] =>
      no_bus_call buf;
      destruct (read_data_loop buf n i d) as [[[|] ?]|] eqn:?
  end.

Ltac driver_cases := driver_simpl; repeat (driver_case; driver_simpl).

Ltac log_simpl :=
  unfold commands_sent, published_temperature, published_humidity;
  rewrite ?flat_map_app; cbn [flat_map app];
  rewrite ?app_nil_r, <- ?app_assoc; cbn [app].

Section SetupProperties.

Context {bus : Type} {I2C : I2CDevice bus}.

Abbreviation component := (SHTCXComponent bus).

Lemma setup_success (s : component) (data : list Z) :
  let s2 := soft_reset (wake_up s) in
  let s3 := snd (write_command_ s2 SHTCX_COMMAND_READ_ID_REGISTER) in
  fst (write_command_ s2 SHTCX_COMMAND_READ_ID_REGISTER) = true ->
  fst (read_data_ s3 1) = Some (true, data) ->
  sensor_id_ (setup s) = nth 0 data 0
  /\ type_ (setup s) = decode_device_id (nth 0 data 0)
  /\ failed (setup s) = failed s.
Proof.
  destruct s as [t id ts hs w f b l p]. driver_unfold. driver_cases;
    intros; try discriminate; repeat split;
    match goal with H : Some _ = Some _ |- _ => inversion H; subst end;
    reflexivity.
Qed.

(** C8. A failure of the ReadID write, or of the one-word read that follows
    it, marks the component failed and ends set-up there: neither
    [type_] nor [sensor_id_] is assigned and no command is sent again.  A
    measurement cycle never changes the failed flag. *)
Theorem setup_failure_is_fatal (s : component) :
  let s2 := soft_reset (wake_up s) in
  let ack := fst (write_command_ s2 SHTCX_COMMAND_READ_ID_REGISTER) in
  let s3 := snd (write_command_ s2 SHTCX_COMMAND_READ_ID_REGISTER) in
  (ack = false ->
   failed (setup s) = true
   /\ type_ (setup s) = type_ s
   /\ sensor_id_ (setup s) = sensor_id_ s
   /\ log (setup s) = log s3)
  /\ (ack = true ->
      forall data, fst (read_data_ s3 1) = Some (false, data) ->
      failed (setup s) = true
      /\ type_ (setup s) = type_ s
      /\ sensor_id_ (setup s) = sensor_id_ s
      /\ log (setup s) = log (snd (read_data_ s3 1)))
  /\ commands_sent (log s3)
     = commands_sent (log s)
       ++ [SHTCX_COMMAND_WAKEUP; SHTCX_COMMAND_SOFT_RESET;
           SHTCX_COMMAND_READ_ID_REGISTER]
  /\ commands_sent (log (snd (read_data_ s3 1))) = commands_sent (log s3)
  /\ failed (update s) = failed s
  /\ failed (update_completion s) = failed s.
Proof.
  destruct s as [t id ts hs w f b l p].
  split; [|split; [|split; [|split; [|split]]]].
  - driver_unfold. driver_cases; intros; try discriminate;
      repeat split; reflexivity.
  - driver_unfold. driver_cases; intros; try discriminate;
      repeat split; reflexivity.
  - driver_unfold. driver_cases; log_simpl; reflexivity.
  - driver_unfold. driver_cases; log_simpl; reflexivity.
  - driver_unfold. destruct w, t, ts, hs; driver_cases; reflexivity.
  - driver_unfold. destruct t, ts, hs; driver_cases; reflexivity.
Qed.

(** C10. The answers to the wake-up and soft-reset writes of set-up are
    dropped: whatever they are, the ReadID command is sent next, and the
    component ends set-up failed only when the ReadID write or the
    one-word read fails. *)
Theorem setup_ignores_wake_and_reset_results (s : component) :
  let ack_wake := fst (write_command_ s SHTCX_COMMAND_WAKEUP) in
  let ack_reset := fst (write_command_ (wake_up s) SHTCX_COMMAND_SOFT_RESET) in
  let s2 := soft_reset (wake_up s) in
  let ack_id := fst (write_command_ s2 SHTCX_COMMAND_READ_ID_REGISTER) in
  let s3 := snd (write_command_ s2 SHTCX_COMMAND_READ_ID_REGISTER) in
  (exists rest,
      log (setup s)
      = log s
        ++ [command_write SHTCX_COMMAND_WAKEUP ack_wake;
            EvDelayMicroseconds 200;
            command_write SHTCX_COMMAND_SOFT_RESET ack_reset;
            EvDelayMicroseconds 200;
            command_write SHTCX_COMMAND_READ_ID_REGISTER ack_id]
        ++ rest)
  /\ failed (setup s)
     = (failed s
        || negb ack_id
        || match fst (read_data_ s3 1) with
           | Some (false, _) => true
           | _ => false
           end).
Proof.
  destruct s as [t id ts hs w f b l p].
  split.
  - driver_unfold. driver_cases; rewrite <- ?app_assoc; cbn [app];
      eexists; reflexivity.
  - driver_unfold. driver_cases;
      rewrite ?orb_false_r, ?orb_true_r; reflexivity.
Qed.

End SetupProperties.

Lemma setup_failure_is_fatal_witness :
  (failed (setup component_id_write_fails) = true
   /\ type_ (setup component_id_write_fails) = SHTCX_TYPE_UNKNOWN
   /\ sensor_id_ (setup component_id_write_fails) = 0)
  /\ (failed (setup component_id_crc_fails) = true
      /\ type_ (setup component_id_crc_fails) = SHTCX_TYPE_UNKNOWN
      /\ sensor_id_ (setup component_id_crc_fails) = 0).
Proof.
  split.
  - destruct (setup_failure_is_fatal component_id_write_fails) as [H _].
    destruct (H eq_refl) as [Hf [Ht [Hi _]]].
    split; [exact Hf | split; [exact Ht | exact Hi]].
  - destruct (setup_failure_is_fatal component_id_crc_fails) as [_ [H _]].
    destruct (H eq_refl [] eq_refl) as [Hf [Ht [Hi _]]].
    split; [exact Hf | split; [exact Ht | exact Hi]].
Defined.

(** Set-up with both the wake-up and the soft-reset refused still reads
    and decodes the ID register. *)
Example setup_with_wake_and_reset_refused :
  let s := setup (component0 SHTCX_TYPE_UNKNOWN false
                    (mkScript [false; false; true] [Some [x08; x87; x5b]])) in
  failed s = false /\ type_ s = SHTCX_TYPE_SHTC3 /\ sensor_id_ s = 0x0887.
Proof. vm_compute. repeat split; reflexivity. Qed.

Section MeasurementProperties.

Context {bus : Type} {I2C : I2CDevice bus}.

Abbreviation component := (SHTCXComponent bus).

Lemma update_fields (s : component) :
  type_ (update s) = type_ s
  /\ sensor_id_ (update s) = sensor_id_ s
  /\ temperature_sensor_ (update s) = temperature_sensor_ s
  /\ humidity_sensor_ (update s) = humidity_sensor_ s
  /\ failed (update s) = failed s.
Proof.
  destruct s as [t id ts hs w f b l p]. driver_unfold.
  destruct w, t, ts, hs; driver_cases; repeat split; reflexivity.
Qed.

Lemma update_completion_fields (s : component) :
  type_ (update_completion s) = type_ s
  /\ sensor_id_ (update_completion s) = sensor_id_ s
  /\ temperature_sensor_ (update_completion s) = temperature_sensor_ s
  /\ humidity_sensor_ (update_completion s) = humidity_sensor_ s
  /\ failed (update_completion s) = failed s.
Proof.
  destruct s as [t id ts hs w f b l p]. driver_unfold.
  destruct t, ts, hs; driver_cases; repeat split; reflexivity.
Qed.

Lemma run_completions_fields (n : nat) :
  forall s : component,
    type_ (run_completions n s) = type_ s
    /\ sensor_id_ (run_completions n s) = sensor_id_ s
    /\ temperature_sensor_ (run_completions n s) = temperature_sensor_ s
    /\ humidity_sensor_ (run_completions n s) = humidity_sensor_ s
    /\ failed (run_completions n s) = failed s.
Proof.
  induction n as [|n IH]; intros s.
  - repeat split; reflexivity.
  - cbn [run_completions].
    destruct (IH (update_completion s)) as [H1 [H2 [H3 [H4 H5]]]].
    destruct (update_completion_fields s) as [E1 [E2 [E3 [E4 E5]]]].
    rewrite H1, H2, H3, H4, H5. repeat split; assumption.
Qed.

Lemma cycle_fields (s : component) :
  type_ (cycle s) = type_ s
  /\ sensor_id_ (cycle s) = sensor_id_ s
  /\ temperature_sensor_ (cycle s) = temperature_sensor_ s
  /\ humidity_sensor_ (cycle s) = humidity_sensor_ s
  /\ failed (cycle s) = failed s.
Proof.
  unfold cycle, run_pending.
  destruct (run_completions_fields (length (pending (update s)))
              (set_pending (update s) [])) as [H1 [H2 [H3 [H4 H5]]]].
  destruct (update_fields s) as [E1 [E2 [E3 [E4 E5]]]].
  rewrite H1, H2, H3, H4, H5. cbn [set_pending type_ sensor_id_
    temperature_sensor_ humidity_sensor_ failed].
  repeat split; assumption.
Qed.

(** The tick of a component that is in the warning state: the soft reset
    goes out first, whatever its answer the wake-up (unless SHTC1) and the
    poll command follow. *)
Lemma update_after_warning (s : component) :
  warning s = true ->
  commands_sent (log (update s))
  = commands_sent (log s)
    ++ [SHTCX_COMMAND_SOFT_RESET]
    ++ (if SHTCXType_eqb (type_ s) SHTCX_TYPE_SHTC1 then []
        else [SHTCX_COMMAND_WAKEUP])
    ++ [SHTCX_COMMAND_POLLING_H]
  /\ exists rest,
      log (update s)
      = log s
        ++ command_write SHTCX_COMMAND_SOFT_RESET
             (fst (write_command_ s SHTCX_COMMAND_SOFT_RESET))
        :: EvDelayMicroseconds 200 :: rest.
Proof.
  destruct s as [t id ts hs w f b l p]. cbn [warning type_ log].
  intros ->. split.
  - driver_unfold. destruct t, ts, hs; driver_cases; log_simpl; reflexivity.
  - driver_unfold. destruct t, ts, hs; driver_cases;
      rewrite <- ?app_assoc; cbn [app]; eexists; reflexivity.
Qed.

(** The tick itself: what follows the poll command. *)
Lemma update_outcome (s : component) :
  let s1 := update_prologue s in
  let ack := fst (write_command_ s1 SHTCX_COMMAND_POLLING_H) in
  let s2 := snd (write_command_ s1 SHTCX_COMMAND_POLLING_H) in
  log (update s)
  = log s2
    ++ (if ack then [EvSetTimeout 50]
        else (if temperature_sensor_ s then [EvPublishTemperature NAN] else [])
             ++ (if humidity_sensor_ s then [EvPublishHumidity NAN] else []))
  /\ pending (update s) = pending s ++ (if ack then [50] else [])
  /\ warning (update s) = (if ack then warning s else true)
  /\ i2c (update s) = i2c s2
  /\ log s2 = log s1 ++ [command_write SHTCX_COMMAND_POLLING_H ack].
Proof.
  destruct s as [t id ts hs w f b l p]. driver_unfold.
  destruct w, t, ts, hs; driver_cases;
    rewrite ?app_nil_r, <- ?app_assoc; cbn [app];
    repeat split; reflexivity.
Qed.

(** C5. When the poll command is refused, the tick publishes NAN to each
    sink that is present, sets the warning and ends: nothing is scheduled
    and the bus is not touched again.  When it is taken, exactly one
    completion is scheduled, at 50 ms, and nothing is published: a
    completion is scheduled if and only if the poll command succeeds. *)
Theorem update_poll_failure_or_one_completion (s : component) :
  let s1 := update_prologue s in
  let ack := fst (write_command_ s1 SHTCX_COMMAND_POLLING_H) in
  let s2 := snd (write_command_ s1 SHTCX_COMMAND_POLLING_H) in
  log (update s)
  = log s2
    ++ (if ack then [EvSetTimeout 50]
        else (if temperature_sensor_ s then [EvPublishTemperature NAN] else [])
             ++ (if humidity_sensor_ s then [EvPublishHumidity NAN] else []))
  /\ pending (update s) = pending s ++ (if ack then [50] else [])
  /\ warning (update s) = (if ack then warning s else true)
  /\ i2c (update s) = i2c s2
  /\ (length (pending (update s)) = S (length (pending s)) <-> ack = true).
Proof.
  intros s1 ack s2.
  destruct (update_outcome s) as [Hl [Hp [Hw [Hb _]]]].
  fold s1 ack s2 in Hl, Hp, Hw, Hb.
  split; [exact Hl|]. split; [exact Hp|]. split; [exact Hw|].
  split; [exact Hb|].
  rewrite Hp, length_app. destruct ack; cbn [length]; split; intros H;
    try reflexivity; try discriminate; lia.
Qed.

(** C6. When a cycle has ended with the warning set, the next tick sends
    SoftReset first, then WakeUp (unless the device is an SHTC1), then the
    poll command: the sequence of commands is the same whatever the answer
    to the soft reset. *)
Theorem update_soft_reset_after_warning (prev : component) :
  warning (cycle prev) = true ->
  let s := cycle prev in
  commands_sent (log (update s))
  = commands_sent (log s)
    ++ [SHTCX_COMMAND_SOFT_RESET]
    ++ (if SHTCXType_eqb (type_ s) SHTCX_TYPE_SHTC1 then []
        else [SHTCX_COMMAND_WAKEUP])
    ++ [SHTCX_COMMAND_POLLING_H]
  /\ exists rest,
      log (update s)
      = log s
        ++ command_write SHTCX_COMMAND_SOFT_RESET
             (fst (write_command_ s SHTCX_COMMAND_SOFT_RESET))
        :: EvDelayMicroseconds 200 :: rest.
Proof.
  intros H s. apply update_after_warning. exact H.
Qed.

End MeasurementProperties.

Lemma update_soft_reset_after_warning_witness :
  warning (cycle component_poll_fails) = true
  /\ commands_sent (log (update (cycle component_poll_fails)))
     = commands_sent (log (cycle component_poll_fails))
       ++ [SHTCX_COMMAND_SOFT_RESET; SHTCX_COMMAND_WAKEUP;
           SHTCX_COMMAND_POLLING_H].
Proof.
  split; [reflexivity|].
  exact (proj1 (update_soft_reset_after_warning component_poll_fails eq_refl)).
Defined.

Section CompletionProperties.

Context {bus : Type} {I2C : I2CDevice bus}.

Abbreviation component := (SHTCXComponent bus).

Lemma read_data__success_length (s : component) (len : Z) (data : list Z) :
  0 <= len -> 3 * len < 256 ->
  fst (read_data_ s len) = Some (true, data) ->
  length data = Z.to_nat len.
Proof.
  intros H0 H1. unfold read_data_.
  destruct (read (i2c s) (to_uint8 (len * 3))) as [[bytes|] b']; cbn [fst];
    [|discriminate].
  pose proof (read_data_loop_groups (Z.to_nat len) []
                (fill_buffer (to_uint8 (len * 3)) bytes) 0 []) as L.
  cbn [app Z.of_nat] in L. rewrite L.
  - intros E. inversion E as [[Hok Hdata]].
    rewrite (leading_words_all_ok _ Hok), length_map, groups_length.
    + reflexivity.
    + rewrite fill_buffer_length, to_uint8_small by lia. lia.
  - reflexivity.
  - lia.
  - rewrite fill_buffer_length, to_uint8_small by lia. lia.
Qed.

(** The tick whose poll command is taken publishes nothing and leaves one
    completion to run. *)
Lemma update_scheduled (s : component) :
  fst (write_command_ (update_prologue s) SHTCX_COMMAND_POLLING_H) = true ->
  published_temperature (log (update s)) = published_temperature (log s)
  /\ published_humidity (log (update s)) = published_humidity (log s)
  /\ pending (update s) = pending s ++ [50].
Proof.
  destruct s as [t id ts hs w f b l p]. driver_unfold.
  destruct w, t, ts, hs; driver_cases; intros; try discriminate;
    log_simpl; repeat split; reflexivity.
Qed.

Lemma cycle_one_completion (s : component) :
  pending s = [] ->
  fst (write_command_ (update_prologue s) SHTCX_COMMAND_POLLING_H) = true ->
  cycle s = update_completion (set_pending (update s) []).
Proof.
  intros Hp Hack. unfold cycle, run_pending.
  destruct (update_scheduled s Hack) as [_ [_ E]].
  rewrite E, Hp. reflexivity.
Qed.

Lemma update_completion_read_failure (s : component) (data : list Z) :
  fst (read_data_ s 2) = Some (false, data) ->
  published_temperature (log (update_completion s))
  = published_temperature (log s)
    ++ (if temperature_sensor_ s then [NAN] else [])
  /\ published_humidity (log (update_completion s))
     = published_humidity (log s)
       ++ (if humidity_sensor_ s then [NAN] else [])
  /\ warning (update_completion s) = false.
Proof.
  destruct s as [t id ts hs w f b l p]. driver_unfold.
  destruct t, ts, hs; driver_cases; intros; try discriminate;
    log_simpl; repeat split; reflexivity.
Qed.

Lemma update_completion_read_success (s : component) (data : list Z) :
  fst (read_data_ s 2) = Some (true, data) ->
  published_temperature (log (update_completion s))
  = published_temperature (log s)
    ++ (if temperature_sensor_ s then [temperature_of_raw (nth 0 data 0)] else [])
  /\ published_humidity (log (update_completion s))
     = published_humidity (log s)
       ++ (if humidity_sensor_ s then [humidity_of_raw (nth 1 data 0)] else [])
  /\ warning (update_completion s) = false.
Proof.
  destruct s as [t id ts hs w f b l p]. driver_unfold.
  destruct t, ts, hs; driver_cases; intros H; try discriminate;
    inversion H; subst; log_simpl; repeat split; reflexivity.
Qed.

(** C1, on the code.  In a cycle whose poll command is taken and whose
    two-word read then fails, NAN is published to each sink that is
    present, but the cycle ends with the warning flag clear: the completion
    sets it and then clears it again unconditionally. *)
Theorem cycle_read_failure_ends_without_warning (s : component) (data : list Z) :
  pending s = [] ->
  fst (write_command_ (update_prologue s) SHTCX_COMMAND_POLLING_H) = true ->
  fst (read_data_ (set_pending (update s) []) 2) = Some (false, data) ->
  published_temperature (log (cycle s))
  = published_temperature (log s)
    ++ (if temperature_sensor_ s then [NAN] else [])
  /\ published_humidity (log (cycle s))
     = published_humidity (log s)
       ++ (if humidity_sensor_ s then [NAN] else [])
  /\ warning (cycle s) = false.
Proof.
  intros Hp Hack Hread.
  rewrite (cycle_one_completion s Hp Hack).
  destruct (update_completion_read_failure _ data Hread) as [Ht [Hh Hw]].
  destruct (update_scheduled s Hack) as [Et [Eh _]].
  destruct (update_fields s) as [_ [_ [Fs [Fh _]]]].
  cbn [set_pending log temperature_sensor_ humidity_sensor_] in Ht, Hh.
  rewrite Ht, Hh, Et, Eh, Fs, Fh.
  repeat split. exact Hw.
Qed.

(** C7. After a successful two-word read the completion publishes, to
    each sink that is present, the binary32 results of lines 97-98; these
    are exactly [175 * word0 / 65536 - 45] and [100 * word1 / 65536] (no
    rounding occurs for any 16-bit word).  The raw word 0x0000 gives
    -45 and 0, the raw word 0x8000 gives 42.5 and 50. *)
Theorem update_completion_publishes_decoded (s : component) (data : list Z) :
  fst (read_data_ s 2) = Some (true, data) ->
  length data = 2%nat
  /\ published_temperature (log (update_completion s))
     = published_temperature (log s)
       ++ (if temperature_sensor_ s
           then [temperature_of_raw (nth 0 data 0)] else [])
  /\ published_humidity (log (update_completion s))
     = published_humidity (log s)
       ++ (if humidity_sensor_ s
           then [humidity_of_raw (nth 1 data 0)] else [])
  /\ (exists t, f32_value (temperature_of_raw (nth 0 data 0)) = Some t
                /\ Qeq t (temperature_formula (nth 0 data 0)))
  /\ (exists h, f32_value (humidity_of_raw (nth 1 data 0)) = Some h
                /\ Qeq h (humidity_formula (nth 1 data 0)))
  /\ f32_is (temperature_of_raw 0x0000) (-45 # 1) = true
  /\ f32_is (humidity_of_raw 0x0000) (0 # 1) = true
  /\ f32_is (temperature_of_raw 0x8000) (85 # 2) = true
  /\ f32_is (humidity_of_raw 0x8000) (50 # 1) = true.
Proof.
  intros Hread.
  pose proof (read_data__success_length s 2 data ltac:(lia) ltac:(lia) Hread) as Hlen.
  pose proof (read_data__words_range s 2 true data Hread) as Hrange.
  destruct (update_completion_read_success s data Hread) as [Ht [Hh _]].
  destruct data as [|raw0 [|raw1 [|x data']]]; try discriminate.
  inversion Hrange as [|? ? R0 Hrange']; subst.
  inversion Hrange' as [|? ? R1 _]; subst.
  split; [reflexivity|]. split; [exact Ht|]. split; [exact Hh|].
  split; [apply temperature_of_raw_exact; exact R0|].
  split; [apply humidity_of_raw_exact; exact R1|].
  repeat split; vm_compute; reflexivity.
Qed.

(** C9. No operation of a measurement cycle assigns [type_] or
    [sensor_id_] (nor the sinks or the failed flag), and a set-up that
    fails leaves them as they were.  What a tick and its completion do
    depends on the variant, the sinks, the transport and, for the tick,
    the warning flag: it is the same for two components that differ in
    everything else. *)
Theorem measurement_cycle_keeps_identity (s : component) :
  (type_ (update s) = type_ s /\ sensor_id_ (update s) = sensor_id_ s)
  /\ (type_ (update_completion s) = type_ s
      /\ sensor_id_ (update_completion s) = sensor_id_ s)
  /\ (type_ (cycle s) = type_ s /\ sensor_id_ (cycle s) = sensor_id_ s)
  /\ (failed s = false -> failed (setup s) = true ->
      type_ (setup s) = type_ s /\ sensor_id_ (setup s) = sensor_id_ s)
  /\ (forall s' : component,
         type_ s' = type_ s ->
         temperature_sensor_ s' = temperature_sensor_ s ->
         humidity_sensor_ s' = humidity_sensor_ s ->
         i2c s' = i2c s ->
         (warning s' = warning s ->
          exists events,
            log (update s) = log s ++ events
            /\ log (update s') = log s' ++ events)
         /\ (exists events,
                log (update_completion s) = log s ++ events
                /\ log (update_completion s') = log s' ++ events)).
Proof.
  split; [|split; [|split; [|split]]].
  - destruct (update_fields s) as [H1 [H2 _]]. split; assumption.
  - destruct (update_completion_fields s) as [H1 [H2 _]]. split; assumption.
  - destruct (cycle_fields s) as [H1 [H2 _]]. split; assumption.
  - destruct s as [t id ts hs w f b l p]. cbn [failed type_ sensor_id_].
    intros ->. driver_unfold. driver_cases; intros; try discriminate;
      split; reflexivity.
  - intros s'.
    destruct s as [t id ts hs w f b l p].
    destruct s' as [t' id' ts' hs' w' f' b' l' p'].
    cbn [type_ temperature_sensor_ humidity_sensor_ i2c warning log].
    intros -> -> -> ->. split.
    + intros ->. driver_unfold.
      destruct w, t, ts, hs; driver_cases;
        rewrite <- ?app_assoc; cbn [app];
        eexists; split; reflexivity.
    + driver_unfold.
      destruct t, ts, hs; driver_cases;
        rewrite <- ?app_assoc; cbn [app];
        eexists; split; reflexivity.
Qed.

End CompletionProperties.

Lemma cycle_read_failure_ends_without_warning_witness :
  published_temperature (log (cycle component_read_fails)) = [NAN]
  /\ published_humidity (log (cycle component_read_fails)) = [NAN]
  /\ warning (cycle component_read_fails) = false.
Proof.
  exact (cycle_read_failure_ends_without_warning
           component_read_fails [] eq_refl eq_refl eq_refl).
Defined.

(** The tick that follows a cycle whose read failed sends no soft reset. *)
Example no_soft_reset_after_read_failure :
  commands_sent (log (update (cycle component_read_fails)))
  = commands_sent (log (cycle component_read_fails))
    ++ [SHTCX_COMMAND_WAKEUP; SHTCX_COMMAND_POLLING_H].
Proof. vm_compute. reflexivity. Qed.

Lemma update_completion_publishes_decoded_witness :
  published_temperature
    (log (update_completion (set_pending (update component_reading) [])))
  = [temperature_of_raw 0x8000]
  /\ published_humidity
       (log (update_completion (set_pending (update component_reading) [])))
     = [humidity_of_raw 0x0000].
Proof.
  assert (Hread : fst (read_data_ (set_pending (update component_reading) []) 2)
                  = Some (true, [0x8000; 0x0000]))
    by (vm_compute; reflexivity).
  destruct (update_completion_publishes_decoded
              (set_pending (update component_reading) []) [0x8000; 0x0000]
              Hread) as [_ [Ht [Hh _]]].
  split; [exact Ht | exact Hh].
Defined.

Lemma measurement_cycle_keeps_identity_witness :
  type_ (setup component_id_write_fails) = SHTCX_TYPE_UNKNOWN
  /\ sensor_id_ (setup component_id_write_fails) = 0.
Proof.
  destruct (measurement_cycle_keeps_identity component_id_write_fails)
    as [_ [_ [_ [H _]]]].
  exact (H eq_refl eq_refl).
Defined.

(** * Further properties of the driver *)

(** ** Command encoding *)

Lemma command_bytes (command : Z) :
  0 <= command < 65536 ->
  0 <= Z.shiftr command 8 < 256
  /\ 0 <= Z.land command 0xFF < 256
  /\ Z.lor (Z.shiftl (Z.shiftr command 8) 8) (Z.land command 0xFF) = command.
Proof.
  intros H. split; [|split].
  - rewrite Z.shiftr_div_pow2 by lia. change (2 ^ 8) with 256.
    split; [apply Z.div_pos; lia | apply Z.div_lt_upper_bound; lia].
  - change 255 with (Z.ones 8). rewrite Z.land_ones by lia.
    apply Z.mod_pos_bound. lia.
  - apply Z.bits_inj'. intros m Hm.
    rewrite Z.lor_spec, Z.land_spec. change 255 with (Z.ones 8).
    destruct (Z_lt_le_dec m 8) as [Hlo|Hhi].
    + rewrite Z.shiftl_spec_low, Z.ones_spec_low by lia.
      rewrite andb_true_r. reflexivity.
    + rewrite Z.shiftl_spec, Z.shiftr_spec, Z.ones_spec_high by lia.
      rewrite andb_false_r, orb_false_r. f_equal. lia.
Qed.

(** ** The CRC detects a change of one byte *)

Lemma crc_bit_unstep_checked :
  check_range (fun c => crc_bit_unstep (crc_bit_step c) =? c) 8 0 = true.
Proof. vm_compute. reflexivity. Qed.

Lemma crc_bit_unstep_step (crc : Z) :
  0 <= crc < 256 -> crc_bit_unstep (crc_bit_step crc) = crc.
Proof.
  intros H. apply Z.eqb_eq.
  apply (check_range_sound _ 8 0 crc crc_bit_unstep_checked).
  cbn. lia.
Qed.

Lemma crc_bit_loop_injective (bit : nat) :
  forall x y,
    0 <= x < 256 -> 0 <= y < 256 ->
    crc_bit_loop bit x = crc_bit_loop bit y -> x = y.
Proof.
  induction bit as [|n IH]; intros x y Hx Hy E.
  - exact E.
  - cbn [crc_bit_loop] in E.
    apply IH in E; try apply crc_bit_step_range.
    rewrite <- (crc_bit_unstep_step x Hx), <- (crc_bit_unstep_step y Hy), E.
    reflexivity.
Qed.

Lemma lxor_cancel_r (x y b : Z) : Z.lxor x b = Z.lxor y b -> x = y.
Proof.
  intros E.
  assert (Hx : Z.lxor (Z.lxor x b) b = x)
    by (rewrite Z.lxor_assoc, Z.lxor_nilpotent, Z.lxor_0_r; reflexivity).
  assert (Hy : Z.lxor (Z.lxor y b) b = y)
    by (rewrite Z.lxor_assoc, Z.lxor_nilpotent, Z.lxor_0_r; reflexivity).
  rewrite <- Hx, <- Hy, E. reflexivity.
Qed.

Lemma lxor_cancel_l (a x y : Z) : Z.lxor a x = Z.lxor a y -> x = y.
Proof.
  rewrite (Z.lxor_comm a x), (Z.lxor_comm a y). apply lxor_cancel_r.
Qed.

Lemma sht_crc_injective_data1 (a a' b : Z) :
  0 <= a < 256 -> 0 <= a' < 256 -> 0 <= b < 256 ->
  sht_crc a b = sht_crc a' b -> a = a'.
Proof.
  intros Ha Ha' Hb. unfold sht_crc.
  assert (Hx : 0 <= Z.lxor 255 a < 256) by (apply (lxor_below _ _ 8); lia).
  assert (Hx' : 0 <= Z.lxor 255 a' < 256) by (apply (lxor_below _ _ 8); lia).
  rewrite (to_uint8_small _ Hx), (to_uint8_small _ Hx').
  assert (Hl : forall c, 0 <= c < 256 -> 0 <= crc_bit_loop 8 c < 256).
  { intros c Hc. rewrite crc_bit_loop_iter. apply crc_iter_spec. exact Hc. }
  assert (Hy : 0 <= Z.lxor (crc_bit_loop 8 (Z.lxor 255 a)) b < 256)
    by (apply (lxor_below _ _ 8); [lia | apply Hl; exact Hx | lia]).
  assert (Hy' : 0 <= Z.lxor (crc_bit_loop 8 (Z.lxor 255 a')) b < 256)
    by (apply (lxor_below _ _ 8); [lia | apply Hl; exact Hx' | lia]).
  rewrite (to_uint8_small _ Hy), (to_uint8_small _ Hy').
  intros E.
  apply (crc_bit_loop_injective 8 _ _ Hy Hy') in E.
  apply lxor_cancel_r in E.
  apply (crc_bit_loop_injective 8 _ _ Hx Hx') in E.
  apply lxor_cancel_l in E. exact E.
Qed.

Lemma sht_crc_injective_data2 (a b b' : Z) :
  0 <= a < 256 -> 0 <= b < 256 -> 0 <= b' < 256 ->
  sht_crc a b = sht_crc a b' -> b = b'.
Proof.
  intros Ha Hb Hb'. unfold sht_crc.
  assert (Hx : 0 <= Z.lxor 255 a < 256) by (apply (lxor_below _ _ 8); lia).
  rewrite (to_uint8_small _ Hx).
  assert (Hl : 0 <= crc_bit_loop 8 (Z.lxor 255 a) < 256)
    by (rewrite crc_bit_loop_iter; apply crc_iter_spec; exact Hx).
  assert (Hy : 0 <= Z.lxor (crc_bit_loop 8 (Z.lxor 255 a)) b < 256)
    by (apply (lxor_below _ _ 8); lia).
  assert (Hy' : 0 <= Z.lxor (crc_bit_loop 8 (Z.lxor 255 a)) b' < 256)
    by (apply (lxor_below _ _ 8); lia).
  rewrite (to_uint8_small _ Hy), (to_uint8_small _ Hy').
  intros E.
  apply (crc_bit_loop_injective 8 _ _ Hy Hy') in E.
  apply lxor_cancel_l in E. exact E.
Qed.

(** X1. Two data words that differ in exactly one of their two bytes never
    have the same CRC. *)
Theorem sht_crc_detects_one_byte_change (a b a' b' : Z) :
  0 <= a < 256 -> 0 <= b < 256 -> 0 <= a' < 256 -> 0 <= b' < 256 ->
  (a <> a' /\ b = b') \/ (a = a' /\ b <> b') ->
  sht_crc a b <> sht_crc a' b'.
Proof.
  intros Ha Hb Ha' Hb' [[Hne ->]|[-> Hne]] E; apply Hne.
  - exact (sht_crc_injective_data1 a a' b' Ha Ha' Hb' E).
  - exact (sht_crc_injective_data2 a' b b' Ha' Hb Hb' E).
Qed.

Lemma sht_crc_detects_one_byte_change_witness :
  sht_crc 0xBE 0xEF <> sht_crc 0xBE 0xEE
  /\ sht_crc 0xBE 0xEF <> sht_crc 0x3E 0xEF.
Proof.
  split.
  - apply (sht_crc_detects_one_byte_change 0xBE 0xEF 0xBE 0xEE); lia.
  - apply (sht_crc_detects_one_byte_change 0xBE 0xEF 0x3E 0xEF); lia.
Defined.

(** ** Device-ID decoding reads six low bits and bit 11 only *)

(** X2. The variant depends on bits 0-5 and 11 of the ID register and on
    nothing else: two register values that agree under the mask 0x83F
    decode to the same variant. *)
Theorem decode_device_id_mask (id id' : Z) :
  Z.land id 0x83F = Z.land id' 0x83F ->
  decode_device_id id = decode_device_id id'.
Proof.
  intros E. unfold decode_device_id.
  assert (H6 : forall x, Z.land x 0x3F = Z.land (Z.land x 0x83F) 0x3F)
    by (intros x; rewrite <- Z.land_assoc; reflexivity).
  assert (H11 : forall x, Z.land x 0x800 = Z.land (Z.land x 0x83F) 0x800)
    by (intros x; rewrite <- Z.land_assoc; reflexivity).
  rewrite (H6 id), (H6 id'), (H11 id), (H11 id'), E. reflexivity.
Qed.

Lemma decode_device_id_mask_witness :
  decode_device_id 0x0887 = decode_device_id 0xF8C7.
Proof.
  apply (decode_device_id_mask 0x0887 0xF8C7). reflexivity.
Defined.

(** ** Range and order of the converted values *)

Lemma temperature_formula_bounds (raw0 : Z) :
  0 <= raw0 < 65536 ->
  Qle (-45 # 1) (temperature_formula raw0)
  /\ Qlt (temperature_formula raw0) (130 # 1).
Proof.
  intros H.
  unfold temperature_formula, Qle, Qlt, Qminus, Qplus, Qopp, Qdiv, Qmult,
    Qinv, inject_Z.
  cbn [Qnum Qden]. lia.
Qed.

Lemma humidity_formula_bounds (raw1 : Z) :
  0 <= raw1 < 65536 ->
  Qle (0 # 1) (humidity_formula raw1)
  /\ Qlt (humidity_formula raw1) (100 # 1).
Proof.
  intros H.
  unfold humidity_formula, Qle, Qlt, Qdiv, Qmult, Qinv, inject_Z.
  cbn [Qnum Qden]. lia.
Qed.

(** X3. For every 16-bit raw word the converted temperature is a finite
    binary32 number in [-45, 130) and the converted humidity a finite
    binary32 number in [0, 100): a successful read never yields NAN or an
    infinity. *)
Theorem decoded_values_in_range (raw : Z) :
  0 <= raw < 65536 ->
  exists t h,
    f32_value (temperature_of_raw raw) = Some t
    /\ f32_value (humidity_of_raw raw) = Some h
    /\ Qle (-45 # 1) t /\ Qlt t (130 # 1)
    /\ Qle (0 # 1) h /\ Qlt h (100 # 1).
Proof.
  intros H.
  destruct (temperature_of_raw_exact raw H) as [t [Et Ht]].
  destruct (humidity_of_raw_exact raw H) as [h [Eh Hh]].
  destruct (temperature_formula_bounds raw H) as [T0 T1].
  destruct (humidity_formula_bounds raw H) as [H0 H1].
  exists t, h.
  split; [exact Et|]. split; [exact Eh|].
  split; [rewrite Ht; exact T0|]. split; [rewrite Ht; exact T1|].
  split; [rewrite Hh; exact H0 | rewrite Hh; exact H1].
Qed.

Lemma decoded_values_in_range_witness :
  exists t h,
    f32_value (temperature_of_raw 0xFFFF) = Some t
    /\ f32_value (humidity_of_raw 0xFFFF) = Some h
    /\ Qle (-45 # 1) t /\ Qlt t (130 # 1)
    /\ Qle (0 # 1) h /\ Qlt h (100 # 1).
Proof.
  apply (decoded_values_in_range 0xFFFF). lia.
Defined.

(** X4. Both conversions are strictly increasing in the raw word: a larger
    raw word is published as a larger value, and distinct raw words as
    distinct values. *)
Theorem decoded_values_increasing (raw raw' : Z) :
  0 <= raw -> raw < raw' -> raw' < 65536 ->
  exists t t' h h',
    f32_value (temperature_of_raw raw) = Some t
    /\ f32_value (temperature_of_raw raw') = Some t'
    /\ f32_value (humidity_of_raw raw) = Some h
    /\ f32_value (humidity_of_raw raw') = Some h'
    /\ Qlt t t' /\ Qlt h h'.
Proof.
  intros H0 Hlt H1.
  destruct (temperature_of_raw_exact raw ltac:(lia)) as [t [Et Ht]].
  destruct (temperature_of_raw_exact raw' ltac:(lia)) as [t' [Et' Ht']].
  destruct (humidity_of_raw_exact raw ltac:(lia)) as [h [Eh Hh]].
  destruct (humidity_of_raw_exact raw' ltac:(lia)) as [h' [Eh' Hh']].
  exists t, t', h, h'.
  split; [exact Et|]. split; [exact Et'|].
  split; [exact Eh|]. split; [exact Eh'|].
  split; [rewrite Ht, Ht' | rewrite Hh, Hh'].
  - unfold temperature_formula, Qlt, Qminus, Qplus, Qopp, Qdiv, Qmult,
      Qinv, inject_Z.
    cbn [Qnum Qden]. lia.
  - unfold humidity_formula, Qlt, Qdiv, Qmult, Qinv, inject_Z.
    cbn [Qnum Qden]. lia.
Qed.

Lemma decoded_values_increasing_witness :
  exists t t' h h',
    f32_value (temperature_of_raw 0x6666) = Some t
    /\ f32_value (temperature_of_raw 0x6667) = Some t'
    /\ f32_value (humidity_of_raw 0x6666) = Some h
    /\ f32_value (humidity_of_raw 0x6667) = Some h'
    /\ Qlt t t' /\ Qlt h h'.
Proof.
  apply (decoded_values_increasing 0x6666 0x6667); lia.
Defined.

(** ** Frames with one byte changed *)

Lemma byte_val_injective (a b : byte) : byte_val a = byte_val b -> a = b.
Proof.
  unfold byte_val. intros E.
  assert (E' : Byte.to_N a = Byte.to_N b) by lia.
  pose proof (Byte.of_to_N a) as Ha. pose proof (Byte.of_to_N b) as Hb.
  rewrite E' in Ha. rewrite Ha in Hb. inversion Hb. reflexivity.
Qed.

Lemma group_one_byte_changed (hi lo crc hi' lo' crc' : byte) :
  group_ok (byte_val hi, byte_val lo, byte_val crc) = true ->
  (hi <> hi' /\ lo = lo' /\ crc = crc')
  \/ (hi = hi' /\ lo <> lo' /\ crc = crc')
  \/ (hi = hi' /\ lo = lo' /\ crc <> crc') ->
  group_ok (byte_val hi', byte_val lo', byte_val crc') = false.
Proof.
  cbn [group_ok]. intros Hok Hchange.
  apply Z.eqb_eq in Hok. apply Z.eqb_neq. intros E.
  pose proof (byte_val_range hi). pose proof (byte_val_range lo).
  pose proof (byte_val_range hi'). pose proof (byte_val_range lo').
  destruct Hchange as [[Hne [<- <-]]|[[<- [Hne <-]]|[<- [<- Hne]]]].
  - apply Hne, byte_val_injective.
    apply (sht_crc_injective_data1 _ _ (byte_val lo)); try assumption.
    rewrite Hok, E. reflexivity.
  - apply Hne, byte_val_injective.
    apply (sht_crc_injective_data2 (byte_val hi)); try assumption.
    rewrite Hok, E. reflexivity.
  - apply Hne, byte_val_injective. rewrite <- Hok, <- E. reflexivity.
Qed.

Lemma set_byte_length (frame : list byte) (p : nat) (v : byte) :
  (p < length frame)%nat -> length (set_byte frame p v) = length frame.
Proof.
  intros H. unfold set_byte.
  rewrite length_app, length_firstn. cbn [length]. rewrite length_skipn. lia.
Qed.

Lemma set_byte_beyond_group (hi lo crc : byte) (rest : list byte) (p : nat) (v : byte) :
  set_byte (hi :: lo :: crc :: rest) (S (S (S p))) v
  = hi :: lo :: crc :: set_byte rest p v.
Proof. reflexivity. Qed.

Lemma groups_cons (n : nat) (hi lo crc : byte) (rest : list byte) :
  groups (S n) (hi :: lo :: crc :: rest)
  = (byte_val hi, byte_val lo, byte_val crc) :: groups n rest.
Proof. reflexivity. Qed.

Lemma forallb_cons {A : Type} (f : A -> bool) (x : A) (l : list A) :
  forallb f (x :: l) = f x && forallb f l.
Proof. reflexivity. Qed.

Lemma leading_words_cons (g : Z * Z * Z) (gs : list (Z * Z * Z)) :
  leading_words (g :: gs)
  = if group_ok g then group_word g :: leading_words gs else [].
Proof. reflexivity. Qed.

Lemma set_byte_in_group (hi lo crc : byte) (rest : list byte) (v : byte) :
  set_byte (hi :: lo :: crc :: rest) 0 v = v :: lo :: crc :: rest
  /\ set_byte (hi :: lo :: crc :: rest) 1 v = hi :: v :: crc :: rest
  /\ set_byte (hi :: lo :: crc :: rest) 2 v = hi :: lo :: v :: rest.
Proof. repeat split; reflexivity. Qed.

Lemma groups_one_byte_changed (n : nat) :
  forall (frame : list byte) (p : nat) (v : byte),
    (3 * n <= length frame)%nat ->
    (p < 3 * n)%nat ->
    nth p frame x00 <> v ->
    forallb group_ok (groups n frame) = true ->
    forallb group_ok (groups n (set_byte frame p v)) = false.
Proof.
  induction n as [|n IH]; intros frame p v Hlen Hp Hv Hok.
  - lia.
  - destruct frame as [|hi [|lo [|crc rest]]]; cbn [length] in Hlen; try lia.
    rewrite groups_cons, forallb_cons in Hok. apply andb_true_iff in Hok.
    destruct Hok as [Hg Hrest].
    destruct (set_byte_in_group hi lo crc rest v) as [E0 [E1 E2]].
    destruct p as [|[|[|p]]].
    + rewrite E0, groups_cons, forallb_cons.
      rewrite (group_one_byte_changed hi lo crc v lo crc Hg); [reflexivity|].
      left. repeat split. exact Hv.
    + rewrite E1, groups_cons, forallb_cons.
      rewrite (group_one_byte_changed hi lo crc hi v crc Hg); [reflexivity|].
      right. left. repeat split. exact Hv.
    + rewrite E2, groups_cons, forallb_cons.
      rewrite (group_one_byte_changed hi lo crc hi lo v Hg); [reflexivity|].
      right. right. repeat split. exact Hv.
    + rewrite set_byte_beyond_group, groups_cons, forallb_cons, Hg.
      apply (IH rest p v); [lia | lia | exact Hv | exact Hrest].
Qed.

Section TransportProperties.

Context {bus : Type} {I2C : I2CDevice bus}.

Abbreviation component := (SHTCXComponent bus).

(** X5. [write_command_] splits a 16-bit command into two bytes, the high
    byte as register and the low byte as data, from which the command is
    recovered; it returns the transport's answer and changes nothing of
    the component but the transport and the log. *)
Theorem write_command__encodes (s : component) (command : Z) :
  0 <= command < 65536 ->
  let hi := Z.shiftr command 8 in
  let lo := Z.land command 0xFF in
  let r := write_command_ s command in
  0 <= hi < 256 /\ 0 <= lo < 256 /\ hi * 256 + lo = command
  /\ fst r = fst (write_byte (i2c s) hi lo)
  /\ i2c (snd r) = snd (write_byte (i2c s) hi lo)
  /\ log (snd r) = log s ++ [EvWriteByte hi lo (fst r)]
  /\ commands_sent (log (snd r)) = commands_sent (log s) ++ [command]
  /\ same_fields s (snd r).
Proof.
  intros H hi lo r.
  destruct (command_bytes command H) as [Hhi [Hlo Hback]].
  split; [exact Hhi|]. split; [exact Hlo|]. split.
  - subst hi lo. rewrite Z.shiftr_div_pow2 by lia.
    change 255 with (Z.ones 8). rewrite Z.land_ones by lia.
    change (2 ^ 8) with 256.
    pose proof (Z.div_mod command 256 ltac:(lia)). lia.
  - subst r hi lo. destruct s as [t id ts hs w f b l p].
    unfold write_command_, same_fields. cbn [i2c].
    destruct (write_byte b (Z.shiftr command 8) (Z.land command 255))
      as [ok b0].
    driver_simpl. unfold commands_sent. rewrite flat_map_app.
    cbn [flat_map app]. rewrite Hback.
    repeat split; reflexivity.
Qed.

(** X6. [soft_reset], [wake_up] and [sleep] are best effort: each sends
    its one command and, whatever the transport answers, leaves the
    component's own state as it was; [soft_reset] and [wake_up] then wait
    200 microseconds, [sleep] does not wait. *)
Theorem power_commands_best_effort (s : component) :
  (same_fields s (soft_reset s)
   /\ exists ack,
       log (soft_reset s)
       = log s ++ [command_write SHTCX_COMMAND_SOFT_RESET ack;
                   EvDelayMicroseconds 200])
  /\ (same_fields s (wake_up s)
      /\ exists ack,
          log (wake_up s)
          = log s ++ [command_write SHTCX_COMMAND_WAKEUP ack;
                      EvDelayMicroseconds 200])
  /\ (same_fields s (sleep s)
      /\ exists ack,
          log (sleep s) = log s ++ [command_write SHTCX_COMMAND_SLEEP ack]).
Proof.
  destruct s as [t id ts hs w f b l p]. unfold same_fields.
  split; [|split]; driver_unfold; driver_cases;
    rewrite <- ?app_assoc; cbn [app];
    (split; [repeat split; reflexivity | eexists; reflexivity]).
Qed.

(** The reader on a frame of the requested length. *)
Lemma read_data__on_frame
  (s : component) (len : Z) (bytes : list byte) (b' : bus) :
  0 <= len -> 3 * len < 256 ->
  read (i2c s) (3 * len) = (Some bytes, b') ->
  Z.of_nat (length bytes) = 3 * len ->
  fst (read_data_ s len)
  = Some (forallb group_ok (groups (Z.to_nat len) bytes),
          leading_words (groups (Z.to_nat len) bytes)).
Proof.
  intros H0 H1 Hread Hlen. unfold read_data_.
  replace (to_uint8 (len * 3)) with (3 * len) by (rewrite to_uint8_small; lia).
  rewrite Hread. cbn [fst].
  rewrite fill_buffer_exact by lia.
  pose proof (read_data_loop_groups (Z.to_nat len) [] bytes 0 []) as L.
  cbn [app Z.of_nat] in L. apply L; [reflexivity | lia | lia].
Qed.

(** X7. [read_data_] asks the transport once, for [3 * len] bytes truncated
    to 8 bits; it sends no command, publishes nothing and changes nothing
    of the component but the transport and the log.  When the transport
    reports an error it returns false and has stored no word. *)
Theorem read_data__effects (s : component) (len : Z) :
  let s' := snd (read_data_ s len) in
  reads_requested (log s') = reads_requested (log s) ++ [to_uint8 (len * 3)]
  /\ commands_sent (log s') = commands_sent (log s)
  /\ published_temperature (log s') = published_temperature (log s)
  /\ published_humidity (log s') = published_humidity (log s)
  /\ i2c s' = snd (read (i2c s) (to_uint8 (len * 3)))
  /\ same_fields s s'
  /\ (fst (read (i2c s) (to_uint8 (len * 3))) = None ->
      fst (read_data_ s len) = Some (false, [])).
Proof.
  destruct s as [t id ts hs w f b l p]. unfold read_data_, same_fields.
  cbn [i2c].
  destruct (read b (to_uint8 (len * 3))) as [[bytes|] b0]; driver_simpl;
    unfold reads_requested; log_simpl;
    repeat split; try reflexivity; discriminate.
Qed.

(** X8. On a frame of [3 * len] bytes (at most 85 words) the reader stops
    at the first group whose CRC differs: it returns whether every group is
    valid, and the output array then holds the words of the groups before
    the first bad one, also when the call returns false. *)
Theorem read_data__stops_at_first_bad_group
  (s : component) (len : Z) (k : nat) (good bad rest : list byte) (b' : bus) :
  0 <= len -> 3 * len < 256 ->
  read (i2c s) (3 * len) = (Some (good ++ bad ++ rest), b') ->
  Z.of_nat (length (good ++ bad ++ rest)) = 3 * len ->
  length good = (3 * k)%nat ->
  length bad = 3%nat ->
  forallb group_ok (groups k good) = true ->
  forallb group_ok (groups 1 bad) = false ->
  fst (read_data_ s len) = Some (false, map group_word (groups k good)).
Proof.
  intros H0 H1 Hread Hlen Hk Hbad Hgood Hbadcrc.
  rewrite (read_data__on_frame s len _ b' H0 H1 Hread Hlen).
  assert (Hn : exists m, Z.to_nat len = (k + S m)%nat).
  { rewrite !length_app in Hlen. exists (Z.to_nat len - k - 1)%nat. lia. }
  destruct Hn as [m ->]. clear Hread Hlen H0 H1.
  revert good Hgood Hk. induction k as [|k IH]; intros good Hgood Hk.
  - destruct good; [|discriminate Hk]. cbn [app Nat.add].
    destruct bad as [|hi [|lo [|crc [|x bad']]]]; try discriminate Hbad.
    change ([hi; lo; crc] ++ rest) with (hi :: lo :: crc :: rest).
    change (groups 1 [hi; lo; crc])
      with ((byte_val hi, byte_val lo, byte_val crc) :: groups 0 []) in Hbadcrc.
    rewrite forallb_cons in Hbadcrc. cbn [groups forallb] in Hbadcrc.
    rewrite andb_true_r in Hbadcrc.
    rewrite groups_cons, forallb_cons, leading_words_cons, Hbadcrc.
    reflexivity.
  - destruct good as [|hi [|lo [|crc good']]]; cbn [length] in Hk; try lia.
    rewrite groups_cons, forallb_cons in Hgood. apply andb_true_iff in Hgood.
    destruct Hgood as [Hg Hgood'].
    specialize (IH good' Hgood' ltac:(lia)).
    inversion IH as [[IHok IHwords]].
    change ((hi :: lo :: crc :: good') ++ bad ++ rest)
      with (hi :: lo :: crc :: (good' ++ bad ++ rest)).
    change (S k + S m)%nat with (S (k + S m)).
    rewrite !groups_cons, forallb_cons, leading_words_cons, Hg.
    rewrite IHok, IHwords. reflexivity.
Qed.

(** X9. A successful read of at most 85 words has stored exactly [len]
    words, each of 16 bits, whatever the transport delivered. *)
Theorem read_data__success_shape (s : component) (len : Z) (data : list Z) :
  0 <= len -> 3 * len < 256 ->
  fst (read_data_ s len) = Some (true, data) ->
  length data = Z.to_nat len
  /\ Forall (fun w => 0 <= w < 65536) data.
Proof.
  intros H0 H1 Hrun. split.
  - unfold read_data_ in Hrun.
    destruct (read (i2c s) (to_uint8 (len * 3))) as [[bytes|] b'];
      cbn [fst] in Hrun; [|discriminate].
    pose proof (read_data_loop_groups (Z.to_nat len) []
                  (fill_buffer (to_uint8 (len * 3)) bytes) 0 []) as L.
    cbn [app Z.of_nat] in L. rewrite L in Hrun.
    + inversion Hrun as [[Hok Hdata]].
      rewrite (leading_words_all_ok _ Hok), length_map, groups_length.
      * reflexivity.
      * rewrite fill_buffer_length, to_uint8_small by lia. lia.
    + reflexivity.
    + lia.
    + rewrite fill_buffer_length, to_uint8_small by lia. lia.
  - exact (read_data__words_range s len true data Hrun).
Qed.

(** X10. A frame of valid groups in which one byte, anywhere, has been
    replaced by a different byte is rejected: [read_data_] returns false. *)
Theorem read_data__rejects_one_changed_byte
  (s : component) (len : Z) (frame : list byte) (p : nat) (v : byte) (b' : bus) :
  0 <= len -> 3 * len < 256 ->
  Z.of_nat (length frame) = 3 * len ->
  forallb group_ok (groups (Z.to_nat len) frame) = true ->
  (p < length frame)%nat ->
  nth p frame x00 <> v ->
  read (i2c s) (3 * len) = (Some (set_byte frame p v), b') ->
  exists data, fst (read_data_ s len) = Some (false, data).
Proof.
  intros H0 H1 Hlen Hok Hp Hv Hread.
  rewrite (read_data__on_frame s len _ b' H0 H1 Hread)
    by (rewrite set_byte_length by exact Hp; exact Hlen).
  rewrite (groups_one_byte_changed (Z.to_nat len) frame p v)
    by (try assumption; lia).
  eexists. reflexivity.
Qed.

End TransportProperties.

Lemma write_command__encodes_witness :
  0x78 * 256 + 0x66 = SHTCX_COMMAND_POLLING_H
  /\ commands_sent
       (log (snd (write_command_ component_poll_fails SHTCX_COMMAND_POLLING_H)))
     = [SHTCX_COMMAND_POLLING_H].
Proof.
  destruct (write_command__encodes component_poll_fails SHTCX_COMMAND_POLLING_H
              ltac:(unfold SHTCX_COMMAND_POLLING_H; lia))
    as [_ [_ [Hback [_ [_ [_ [Hsent _]]]]]]].
  split; [exact Hback | exact Hsent].
Defined.

Lemma read_data__stops_at_first_bad_group_witness :
  fst (read_data_
         (component0 SHTCX_TYPE_SHTC3 false
            (mkScript [] [Some (frame_BEEF ++ [xbe; xef; x00] ++ frame_BEEF)]))
         3)
  = Some (false, [0xBEEF]).
Proof.
  exact (read_data__stops_at_first_bad_group
           (component0 SHTCX_TYPE_SHTC3 false
              (mkScript [] [Some (frame_BEEF ++ [xbe; xef; x00] ++ frame_BEEF)]))
           3 1 frame_BEEF [xbe; xef; x00] frame_BEEF (mkScript [] [])
           ltac:(lia) ltac:(lia) eq_refl eq_refl eq_refl eq_refl
           eq_refl eq_refl).
Defined.

Lemma read_data__success_shape_witness :
  length [0xBEEF; 0xBEEF] = Z.to_nat 2
  /\ Forall (fun w => 0 <= w < 65536) [0xBEEF; 0xBEEF].
Proof.
  assert (Hread : fst (read_data_
                         (component0 SHTCX_TYPE_SHTC3 false
                            (mkScript [] [Some (frame_BEEF ++ frame_BEEF)])) 2)
                  = Some (true, [0xBEEF; 0xBEEF]))
    by (vm_compute; reflexivity).
  exact (read_data__success_shape _ 2 _ ltac:(lia) ltac:(lia) Hread).
Defined.

Lemma read_data__rejects_one_changed_byte_witness :
  exists data,
    fst (read_data_
           (component0 SHTCX_TYPE_SHTC3 false
              (mkScript [] [Some (set_byte frame_measurement 4 x01)])) 2)
    = Some (false, data).
Proof.
  apply (read_data__rejects_one_changed_byte
           (component0 SHTCX_TYPE_SHTC3 false
              (mkScript [] [Some (set_byte frame_measurement 4 x01)]))
           2 frame_measurement 4 x01 (mkScript [] []));
    try lia; try reflexivity; try discriminate.
  cbn. lia.
Defined.


Ltac cycle_cases :=
  driver_unfold; driver_simpl;
  repeat (driver_case; driver_simpl; driver_unfold; driver_simpl).

Section SetupAndCycleProperties.

Context {bus : Type} {I2C : I2CDevice bus}.

Abbreviation component := (SHTCXComponent bus).

(** X12. Set-up on a device that acknowledges ReadID and answers with a
    frame whose CRC holds stores the register value [(hi << 8) | lo] and
    the variant decoded from it, and does not fail, whatever the device
    answered to the wake-up and the soft reset and whatever the variant
    (an unknown device is not an error). *)
Theorem setup_identifies_device (s : component) (hi lo crc : byte) (b' : bus) :
  let s2 := soft_reset (wake_up s) in
  let s3 := snd (write_command_ s2 SHTCX_COMMAND_READ_ID_REGISTER) in
  fst (write_command_ s2 SHTCX_COMMAND_READ_ID_REGISTER) = true ->
  read (i2c s3) 3 = (Some [hi; lo; crc], b') ->
  sht_crc (byte_val hi) (byte_val lo) = byte_val crc ->
  sensor_id_ (setup s) = Z.lor (Z.shiftl (byte_val hi) 8) (byte_val lo)
  /\ type_ (setup s)
     = decode_device_id (Z.lor (Z.shiftl (byte_val hi) 8) (byte_val lo))
  /\ failed (setup s) = failed s.
Proof.
  intros s2 s3 Hack Hread Hcrc.
  assert (Hdata : fst (read_data_ s3 1)
                  = Some (true, [Z.lor (Z.shiftl (byte_val hi) 8) (byte_val lo)])).
  { rewrite (read_data__on_frame s3 1 [hi; lo; crc] b');
      [|lia|lia|exact Hread|reflexivity].
    change (groups (Z.to_nat 1) [hi; lo; crc])
      with ((byte_val hi, byte_val lo, byte_val crc) :: groups 0 []).
    rewrite forallb_cons, leading_words_cons.
    assert (Hg : group_ok (byte_val hi, byte_val lo, byte_val crc) = true)
      by (cbn [group_ok]; apply Z.eqb_eq; exact Hcrc).
    rewrite Hg. reflexivity. }
  exact (setup_success s _ Hack Hdata).
Qed.

(** X13. Whatever the transport answers, set-up sends exactly the three
    commands WakeUp, SoftReset, ReadID, in this order, reads at most once
    (three bytes, and only after an acknowledged ReadID), publishes
    nothing, schedules nothing and leaves the warning flag and the sinks as
    they were. *)
Theorem setup_effects (s : component) :
  let ack :=
    fst (write_command_ (soft_reset (wake_up s)) SHTCX_COMMAND_READ_ID_REGISTER) in
  commands_sent (log (setup s))
  = commands_sent (log s)
    ++ [SHTCX_COMMAND_WAKEUP; SHTCX_COMMAND_SOFT_RESET;
        SHTCX_COMMAND_READ_ID_REGISTER]
  /\ reads_requested (log (setup s))
     = reads_requested (log s) ++ (if ack then [3] else [])
  /\ published_temperature (log (setup s)) = published_temperature (log s)
  /\ published_humidity (log (setup s)) = published_humidity (log s)
  /\ warning (setup s) = warning s
  /\ pending (setup s) = pending s
  /\ temperature_sensor_ (setup s) = temperature_sensor_ s
  /\ humidity_sensor_ (setup s) = humidity_sensor_ s.
Proof.
  destruct s as [t id ts hs w f b l p].
  driver_unfold. driver_cases; unfold reads_requested; log_simpl;
    repeat split; reflexivity.
Qed.

(** The tick, whatever the transport answers. *)
Lemma update_summary (s : component) :
  let ack :=
    fst (write_command_ (update_prologue s) SHTCX_COMMAND_POLLING_H) in
  let shtc1 := SHTCXType_eqb (type_ s) SHTCX_TYPE_SHTC1 in
  commands_sent (log (update s))
  = commands_sent (log s)
    ++ (if warning s then [SHTCX_COMMAND_SOFT_RESET] else [])
    ++ (if shtc1 then [] else [SHTCX_COMMAND_WAKEUP])
    ++ [SHTCX_COMMAND_POLLING_H]
  /\ reads_requested (log (update s)) = reads_requested (log s)
  /\ warning (update s) = (if ack then warning s else true)
  /\ published_temperature (log (update s))
     = published_temperature (log s)
       ++ (if ack then [] else if temperature_sensor_ s then [NAN] else [])
  /\ published_humidity (log (update s))
     = published_humidity (log s)
       ++ (if ack then [] else if humidity_sensor_ s then [NAN] else [])
  /\ pending (update s) = pending s ++ (if ack then [50] else []).
Proof.
  destruct s as [t id ts hs w f b l p]. driver_unfold.
  destruct w, t, ts, hs; driver_cases;
    unfold reads_requested; log_simpl; repeat split; reflexivity.
Qed.

(** The completion, whichever way its read goes. *)
Lemma update_completion_summary (s : component) :
  let shtc1 := SHTCXType_eqb (type_ s) SHTCX_TYPE_SHTC1 in
  commands_sent (log (update_completion s))
  = commands_sent (log s) ++ (if shtc1 then [] else [SHTCX_COMMAND_SLEEP])
  /\ reads_requested (log (update_completion s))
     = reads_requested (log s) ++ [6]
  /\ warning (update_completion s) = false
  /\ length (published_temperature (log (update_completion s)))
     = (length (published_temperature (log s))
        + (if temperature_sensor_ s then 1 else 0))%nat
  /\ length (published_humidity (log (update_completion s)))
     = (length (published_humidity (log s))
        + (if humidity_sensor_ s then 1 else 0))%nat
  /\ pending (update_completion s) = pending s.
Proof.
  destruct (read_data__defined s 2 ltac:(lia) ltac:(lia)) as [ok [data E]].
  revert E. destruct s as [t id ts hs w f b l p]. driver_unfold.
  destruct t, ts, hs; driver_cases; intros E; try discriminate E;
    unfold reads_requested; log_simpl; rewrite ?length_app; cbn [length];
    repeat split; try reflexivity; lia.
Qed.

Lemma cycle_unfold (s : component) :
  pending s = [] ->
  cycle s
  = if fst (write_command_ (update_prologue s) SHTCX_COMMAND_POLLING_H)
    then update_completion (set_pending (update s) [])
    else set_pending (update s) [].
Proof.
  intros Hp. unfold cycle, run_pending.
  destruct (update_summary s) as [_ [_ [_ [_ [_ E]]]]].
  rewrite E, Hp.
  destruct (fst (write_command_ (update_prologue s) SHTCX_COMMAND_POLLING_H));
    reflexivity.
Qed.

(** X14. The commands of a whole cycle, in order: SoftReset if the
    component was in the warning state, WakeUp unless the device is an
    SHTC1, the poll command, and Sleep only when the poll command was
    acknowledged and the device is not an SHTC1.  An SHTC1 is never sent
    WakeUp or Sleep; after a refused poll no Sleep follows the WakeUp. *)
Theorem cycle_commands (s : component) :
  pending s = [] ->
  let ack :=
    fst (write_command_ (update_prologue s) SHTCX_COMMAND_POLLING_H) in
  let shtc1 := SHTCXType_eqb (type_ s) SHTCX_TYPE_SHTC1 in
  commands_sent (log (cycle s))
  = commands_sent (log s)
    ++ (if warning s then [SHTCX_COMMAND_SOFT_RESET] else [])
    ++ (if shtc1 then [] else [SHTCX_COMMAND_WAKEUP])
    ++ [SHTCX_COMMAND_POLLING_H]
    ++ (if ack && negb shtc1 then [SHTCX_COMMAND_SLEEP] else [])
  /\ reads_requested (log (cycle s))
     = reads_requested (log s) ++ (if ack then [6] else []).
Proof.
  intros Hp ack shtc1. rewrite (cycle_unfold s Hp). fold ack.
  destruct (update_summary s) as [Hc [Hr _]]. fold shtc1 in Hc.
  destruct (update_fields s) as [Ht _].
  destruct ack.
  - destruct (update_completion_summary (set_pending (update s) []))
      as [Hc' [Hr' _]].
    cbn [set_pending log type_] in Hc', Hr'.
    rewrite Hc', Hr', Hc, Hr, Ht. fold shtc1.
    rewrite <- !app_assoc. destruct shtc1; split; reflexivity.
  - cbn [set_pending log andb]. rewrite Hc, Hr, !app_nil_r.
    split; reflexivity.
Qed.

(** X15. A cycle ends in the warning state exactly when its poll command
    was refused: the outcome of the read has no part in it. *)
Theorem cycle_warning_iff_poll_refused (s : component) :
  pending s = [] ->
  warning (cycle s)
  = negb (fst (write_command_ (update_prologue s) SHTCX_COMMAND_POLLING_H)).
Proof.
  intros Hp. rewrite (cycle_unfold s Hp).
  destruct (update_summary s) as [_ [_ [Hw _]]].
  destruct (fst (write_command_ (update_prologue s) SHTCX_COMMAND_POLLING_H)).
  - destruct (update_completion_summary (set_pending (update s) []))
      as [_ [_ [Hw' _]]].
    exact Hw'.
  - cbn [set_pending warning]. exact Hw.
Qed.

(** X16. Every cycle publishes exactly one value to each sink that is
    present and none to a sink that is absent, and leaves no completion
    pending. *)
Theorem cycle_publishes_once_per_sink (s : component) :
  pending s = [] ->
  length (published_temperature (log (cycle s)))
  = (length (published_temperature (log s))
     + (if temperature_sensor_ s then 1 else 0))%nat
  /\ length (published_humidity (log (cycle s)))
     = (length (published_humidity (log s))
        + (if humidity_sensor_ s then 1 else 0))%nat
  /\ pending (cycle s) = [].
Proof.
  intros Hp. rewrite (cycle_unfold s Hp).
  destruct (update_summary s) as [_ [_ [_ [Ht [Hh _]]]]].
  destruct (update_fields s) as [_ [_ [Fs [Fh _]]]].
  destruct (fst (write_command_ (update_prologue s) SHTCX_COMMAND_POLLING_H)).
  - destruct (update_completion_summary (set_pending (update s) []))
      as [_ [_ [_ [Ht' [Hh' Hp']]]]].
    cbn [set_pending log temperature_sensor_ humidity_sensor_ pending]
      in Ht', Hh', Hp'.
    rewrite Ht', Hh', Hp', Ht, Hh, Fs, Fh, !app_nil_r.
    repeat split; reflexivity.
  - cbn [set_pending log pending]. rewrite Ht, Hh, !length_app.
    destruct (temperature_sensor_ s), (humidity_sensor_ s);
      repeat split; reflexivity.
Qed.

(** X17. The completion returns the device to sleep, unless it is an
    SHTC1, and ends with the warning flag clear whichever way its read
    went; it reads once, six bytes, and schedules nothing. *)
Theorem update_completion_sleeps_and_clears (s : component) :
  commands_sent (log (update_completion s))
  = commands_sent (log s)
    ++ (if SHTCXType_eqb (type_ s) SHTCX_TYPE_SHTC1 then []
        else [SHTCX_COMMAND_SLEEP])
  /\ reads_requested (log (update_completion s))
     = reads_requested (log s) ++ [6]
  /\ warning (update_completion s) = false
  /\ pending (update_completion s) = pending s.
Proof.
  destruct (update_completion_summary s) as [Hc [Hr [Hw [_ [_ Hp]]]]].
  repeat split; assumption.
Qed.

(** X18. A cycle whose poll command is acknowledged and whose frame of two
    groups arrives with both CRC bytes right publishes the conversions of
    the two words [(hi << 8) | lo] to the sinks present. *)
Theorem cycle_measures
  (s : component) (h0 l0 c0 h1 l1 c1 : byte) (b' : bus) :
  pending s = [] ->
  fst (write_command_ (update_prologue s) SHTCX_COMMAND_POLLING_H) = true ->
  read (i2c (update s)) 6 = (Some [h0; l0; c0; h1; l1; c1], b') ->
  sht_crc (byte_val h0) (byte_val l0) = byte_val c0 ->
  sht_crc (byte_val h1) (byte_val l1) = byte_val c1 ->
  published_temperature (log (cycle s))
  = published_temperature (log s)
    ++ (if temperature_sensor_ s
        then [temperature_of_raw (Z.lor (Z.shiftl (byte_val h0) 8) (byte_val l0))]
        else [])
  /\ published_humidity (log (cycle s))
     = published_humidity (log s)
       ++ (if humidity_sensor_ s
           then [humidity_of_raw (Z.lor (Z.shiftl (byte_val h1) 8) (byte_val l1))]
           else []).
Proof.
  intros Hp Hack Hread Hc0 Hc1.
  rewrite (cycle_one_completion s Hp Hack).
  assert (Hdata : fst (read_data_ (set_pending (update s) []) 2)
                  = Some (true, [Z.lor (Z.shiftl (byte_val h0) 8) (byte_val l0);
                                 Z.lor (Z.shiftl (byte_val h1) 8) (byte_val l1)])).
  { rewrite (read_data__on_frame _ 2 [h0; l0; c0; h1; l1; c1] b');
      [|lia|lia|exact Hread|reflexivity].
    change (groups (Z.to_nat 2) [h0; l0; c0; h1; l1; c1])
      with ((byte_val h0, byte_val l0, byte_val c0)
            :: (byte_val h1, byte_val l1, byte_val c1) :: groups 0 []).
    rewrite !forallb_cons, !leading_words_cons.
    assert (G0 : group_ok (byte_val h0, byte_val l0, byte_val c0) = true)
      by (cbn [group_ok]; apply Z.eqb_eq; exact Hc0).
    assert (G1 : group_ok (byte_val h1, byte_val l1, byte_val c1) = true)
      by (cbn [group_ok]; apply Z.eqb_eq; exact Hc1).
    rewrite G0, G1. reflexivity. }
  destruct (update_completion_read_success _ _ Hdata) as [Ht [Hh _]].
  destruct (update_scheduled s Hack) as [Et [Eh _]].
  destruct (update_fields s) as [_ [_ [Fs [Fh _]]]].
  cbn [set_pending log temperature_sensor_ humidity_sensor_ nth] in Ht, Hh.
  rewrite Ht, Hh, Et, Eh, Fs, Fh. split; reflexivity.
Qed.

(** X19. When one byte of an otherwise valid measurement frame arrives
    changed, whichever of the six it is, the cycle publishes NAN to both
    sinks (when present): no word of the frame is used. *)
Theorem cycle_rejects_one_changed_byte
  (s : component) (frame : list byte) (p : nat) (v : byte) (b' : bus) :
  pending s = [] ->
  fst (write_command_ (update_prologue s) SHTCX_COMMAND_POLLING_H) = true ->
  length frame = 6%nat ->
  forallb group_ok (groups 2 frame) = true ->
  (p < 6)%nat ->
  nth p frame x00 <> v ->
  read (i2c (update s)) 6 = (Some (set_byte frame p v), b') ->
  published_temperature (log (cycle s))
  = published_temperature (log s)
    ++ (if temperature_sensor_ s then [NAN] else [])
  /\ published_humidity (log (cycle s))
     = published_humidity (log s)
       ++ (if humidity_sensor_ s then [NAN] else []).
Proof.
  intros Hp Hack Hlen Hok Hlt Hv Hread.
  rewrite (cycle_one_completion s Hp Hack).
  assert (Hdata : exists data,
             fst (read_data_ (set_pending (update s) []) 2) = Some (false, data)).
  { rewrite (read_data__on_frame _ 2 (set_byte frame p v) b');
      [|lia|lia|exact Hread|rewrite set_byte_length; lia].
    change (Z.to_nat 2) with 2%nat.
    rewrite (groups_one_byte_changed 2 frame p v) by (try assumption; lia).
    eexists. reflexivity. }
  destruct Hdata as [data Hdata].
  destruct (update_completion_read_failure _ data Hdata) as [Ht [Hh _]].
  destruct (update_scheduled s Hack) as [Et [Eh _]].
  destruct (update_fields s) as [_ [_ [Fs [Fh _]]]].
  cbn [set_pending log temperature_sensor_ humidity_sensor_] in Ht, Hh.
  rewrite Ht, Hh, Et, Eh, Fs, Fh. split; reflexivity.
Qed.

End SetupAndCycleProperties.

Lemma setup_identifies_device_witness :
  sensor_id_ (setup component_identifying)
  = Z.lor (Z.shiftl (byte_val x08) 8) (byte_val x87)
  /\ type_ (setup component_identifying)
     = decode_device_id (Z.lor (Z.shiftl (byte_val x08) 8) (byte_val x87))
  /\ failed (setup component_identifying) = failed component_identifying.
Proof.
  exact (setup_identifies_device component_identifying x08 x87 x5b
           (mkScript [] []) eq_refl eq_refl eq_refl).
Defined.

Lemma cycle_commands_witness :
  commands_sent (log (cycle component_measuring))
  = [SHTCX_COMMAND_SOFT_RESET; SHTCX_COMMAND_WAKEUP; SHTCX_COMMAND_POLLING_H;
     SHTCX_COMMAND_SLEEP]
  /\ reads_requested (log (cycle component_measuring)) = [6].
Proof.
  exact (cycle_commands component_measuring eq_refl).
Defined.

Lemma cycle_warning_iff_poll_refused_witness :
  warning (cycle component_measuring) = false
  /\ warning (cycle component_poll_fails) = true.
Proof.
  split.
  - exact (cycle_warning_iff_poll_refused component_measuring eq_refl).
  - exact (cycle_warning_iff_poll_refused component_poll_fails eq_refl).
Defined.

Lemma cycle_publishes_once_per_sink_witness :
  length (published_temperature (log (cycle component_poll_fails))) = 1%nat
  /\ length (published_humidity (log (cycle component_poll_fails))) = 1%nat
  /\ pending (cycle component_poll_fails) = [].
Proof.
  exact (cycle_publishes_once_per_sink component_poll_fails eq_refl).
Defined.

Lemma cycle_measures_witness :
  published_temperature (log (cycle component_measuring))
  = [temperature_of_raw (Z.lor (Z.shiftl (byte_val x66) 8) (byte_val x66))]
  /\ published_humidity (log (cycle component_measuring))
     = [humidity_of_raw (Z.lor (Z.shiftl (byte_val x80) 8) (byte_val x00))].
Proof.
  exact (cycle_measures component_measuring x66 x66 x93 x80 x00 xa2
           (mkScript [true] []) eq_refl eq_refl eq_refl eq_refl eq_refl).
Defined.

Lemma cycle_rejects_one_changed_byte_witness :
  published_temperature (log (cycle component_corrupted_reading)) = [NAN]
  /\ published_humidity (log (cycle component_corrupted_reading)) = [NAN].
Proof.
  assert (Hv : nth 4 frame_measurement x00 <> x01) by discriminate.
  exact (cycle_rejects_one_changed_byte component_corrupted_reading
           frame_measurement 4 x01 (mkScript [true] [])
           eq_refl eq_refl eq_refl eq_refl ltac:(lia) Hv eq_refl).
Defined.

Section WordCountProperties.

Context {bus : Type} {I2C : I2CDevice bus}.

Abbreviation component := (SHTCXComponent bus).

(** X11. For a word count from 86 to 255 the byte count [len * 3] does
    not fit the 8-bit [num_bytes]: the transport is asked for fewer bytes
    than the frame has, and no run of the reader stays inside its buffer
    and returns true. *)
Theorem read_data__byte_count_wraps (s : component) (len : Z) :
  85 < len < 256 ->
  reads_requested (log (snd (read_data_ s len)))
  = reads_requested (log s) ++ [to_uint8 (len * 3)]
  /\ to_uint8 (len * 3) < 3 * len
  /\ forall data, fst (read_data_ s len) <> Some (true, data).
Proof.
  intros H. split; [|split].
  - destruct s as [t id ts hs w f b l p]. unfold read_data_. cbn [i2c].
    destruct (read b (to_uint8 (len * 3))) as [[bytes|] b0]; driver_simpl;
      unfold reads_requested; log_simpl; reflexivity.
  - assert (Hnb : 0 <= to_uint8 (len * 3) < 256)
      by (unfold to_uint8; apply Z.mod_pos_bound; lia).
    lia.
  - intros data. apply read_data__beyond_85_words. exact H.
Qed.

End WordCountProperties.

Lemma read_data__byte_count_wraps_witness :
  reads_requested (log (snd (read_data_ component_reading_86_words 86))) = [2]
  /\ fst (read_data_ component_reading_86_words 86) <> Some (true, []).
Proof.
  destruct (read_data__byte_count_wraps component_reading_86_words 86
              ltac:(lia)) as [Hr [_ Hn]].
  split; [exact Hr | exact (Hn [])].
Defined.
